(** * Game of Life: the simulation core of [App.jsx]

    A shallow embedding of the React component's simulation logic
    (grid construction, the rule step, the pattern seeders, the cell
    toggle, the rule-parameter setters and the run/pause loop), for the
    two versions of the component kept in the repository:
    [src/src/App.jsx] and [src/unnamed/part_000].

    Numbers are JavaScript numbers restricted to the integers, plus [NaN]
    where the arithmetic of the step can produce it; the dimensions given
    to a resize are rationals.  Arrays are lists of
    optional slots, so that holes and out-of-range reads and writes
    behave as they do in JavaScript.  Exceptions are explicit results. *)

From stdpp Require Import base numbers list.
From Stdlib Require Import QArith Qround.

Open Scope Z_scope.

(** ** JavaScript values *)

Inductive exn := TypeError | RangeError.

Inductive result (A : Type) :=
  | Ok (a : A)
  | Throw (e : exn).
Arguments Ok {A} a.
Arguments Throw {A} e.

Definition bind {A B} (m : result A) (k : A → result B) : result B :=
  match m with
  | Ok a => k a
  | Throw e => Throw e
  end.

Notation "'let*' x ':=' m 'in' k" := (bind m (fun x => k))
  (at level 10, x name, m at level 100, k at level 200).

(** The result of [neighbors += ...]: an integer, or [NaN] once an
    [undefined] has been added. *)
Inductive number :=
  | Int (z : Z)
  | NaN.

(** [n + v] where [v] was read from an array ([None] is [undefined]). *)
Definition js_add (n : number) (v : option Z) : number :=
  match n, v with
  | Int a, Some b => Int (a + b)
  | _, _ => NaN
  end.

(** [n < k], [n > k], [n === k]: every comparison with [NaN] is false. *)
Definition js_lt (n : number) (k : Z) : bool :=
  match n with Int a => a <? k | NaN => false end.
Definition js_gt (n : number) (k : Z) : bool :=
  match n with Int a => a >? k | NaN => false end.
Definition js_eq (n : number) (k : Z) : bool :=
  match n with Int a => a =? k | NaN => false end.

(** A JavaScript array: a list of slots, [None] being a hole. *)
Abbreviation array A := (list (option A)) (only parsing).

(** [a[i]]: [None] is [undefined] (negative index, index past the end,
    or a hole). *)
Definition array_get {A} (a : array A) (i : Z) : option A :=
  if i <? 0 then None
  else match a !! Z.to_nat i with
       | Some (Some v) => Some v
       | _ => None
       end.

(** [a[i] = v]: inside the array the slot is overwritten; past the end the
    array grows, the slots in between being holes.  A negative [i] names
    a property that is not an element, and leaves the elements alone. *)
Definition array_set {A} (a : array A) (i : Z) (v : A) : array A :=
  if i <? 0 then a
  else if i <? Z.of_nat (length a) then <[Z.to_nat i := Some v]> a
  else a ++ replicate (Z.to_nat i - length a)%nat None ++ [Some v].

(** [a.map((x, k) => f x k)] for a callback that cannot throw: holes are
    skipped and stay holes. *)
Definition array_map {A B} (f : A → Z → B) (a : array A) : array B :=
  imap (λ k slot, (λ x, f x (Z.of_nat k)) <$> slot) a.

(** [a.map((x, k) => f x k)] for a callback that may throw: the first
    exception leaves the map. *)
Fixpoint array_mapM_from {A B} (f : A → Z → result B) (k : Z) (a : array A)
  : result (array B) :=
  match a with
  | [] => Ok []
  | None :: a' =>
      let* bs := array_mapM_from f (k + 1) a' in
      Ok (None :: bs)
  | Some x :: a' =>
      let* b := f x k in
      let* bs := array_mapM_from f (k + 1) a' in
      Ok (Some b :: bs)
  end.

Definition array_mapM {A B} (f : A → Z → result B) (a : array A)
  : result (array B) :=
  array_mapM_from f 0 a.

(** [l.forEach(x => body)] where the body updates a captured variable of
    type [S] and may throw. *)
Fixpoint forEach {A S} (body : S → A → result S) (l : list A) (s : S)
  : result S :=
  match l with
  | [] => Ok s
  | x :: l' => let* s' := body s x in forEach body l' s'
  end.

(** ** The grid *)

Definition Alive : Z := 1.
Definition Dead : Z := 0.

(** The grid: an array of rows, each an array of numbers. *)
Abbreviation grid_t := (array (array Z)) (only parsing).

(** [g[i][j]] as a value, [None] where JavaScript yields [undefined] for
    the cell or has no row [i]. *)
Definition cell_at (g : grid_t) (i j : Z) : option Z :=
  match array_get g i with
  | Some row => array_get row j
  | None => None
  end.

(** [g[i][j] = v]: a [TypeError] when [g[i]] is [undefined], otherwise the
    row object [g[i]] is updated in place. *)
Definition grid_set (g : grid_t) (i j : Z) (v : Z) : result grid_t :=
  match array_get g i with
  | None => Throw TypeError
  | Some row => Ok (<[Z.to_nat i := Some (array_set row j v)]> g)
  end.

(** The numbers typed into the Height and Width inputs are finite numbers,
    integers or not: rationals.  An integer is read as the rational it
    is. *)
Coercion inject_Z : Z >-> Q.

Definition is_integer (q : Q) : bool := Qnum q mod Z.pos (Qden q) =? 0.

(** [generateEmptyGrid(rows, cols)]:
    [Array.from({ length: rows }, () => Array(cols).fill(0))].
    [Array.from] takes the length rounded down, a length that is not
    positive giving the empty array, and throws a [RangeError] for a
    length of 2^32 or more.  For every row [Array(cols)] throws a
    [RangeError] unless [cols] is an integer from 0 to 2^32 - 1.  Every
    row is a fresh array, so rows do not alias.  The function has the
    same text in both source files. *)
Definition generateEmptyGrid (rows cols : Q) : result grid_t :=
  let len := Qfloor rows in
  if len <=? 0 then Ok []
  else if 2 ^ 32 <=? len then Throw RangeError
  else if is_integer cols && (0 <=? Qfloor cols) && (Qfloor cols <? 2 ^ 32)
  then Ok (replicate (Z.to_nat len)
             (Some (replicate (Z.to_nat (Qfloor cols)) (Some 0))))
  else Throw RangeError.
Arguments generateEmptyGrid (rows cols)%_Z.

(** [operations]: the eight direction vectors, in source order (the same
    in both source files). *)
Definition operations : list (Z * Z) :=
  [ (0, 1); (0, -1); (1, -1); (-1, 1); (1, 1); (-1, -1); (1, 0); (-1, 0) ].

(** ** Component state *)

(** The [useState] values that [runSimulation] lists as dependencies: a
    [runSimulation] closure keeps the values of the render that made it.
    [simulationSpeed] exists in [part_000] only; [App.jsx] never reads
    it. *)
Record config := mkConfig {
  numRows : Z;
  numCols : Z;
  surviveMin : Z;
  surviveMax : Z;
  birthNum : Z;
  simulationSpeed : Z
}.

(** The rest of the state: the grid, the [running] flag, the current
    value of [runningRef], and the pending [setTimeout] callbacks, each
    with its delay and the closure that was scheduled. *)
Record state := mkState {
  cfg : config;
  grid : grid_t;
  running : bool;
  runningRef : bool;
  timers : list (Z * config)
}.

Definition interval : Z := 120.

Definition with_grid (g : grid_t) (s : state) : state :=
  mkState (cfg s) g (running s) (runningRef s) (timers s).
Definition with_running (b : bool) (s : state) : state :=
  mkState (cfg s) (grid s) b (runningRef s) (timers s).
Definition with_runningRef (b : bool) (s : state) : state :=
  mkState (cfg s) (grid s) (running s) b (timers s).
Definition with_timers (t : list (Z * config)) (s : state) : state :=
  mkState (cfg s) (grid s) (running s) (runningRef s) t.
Definition with_cfg (c : config) (s : state) : state :=
  mkState c (grid s) (running s) (runningRef s) (timers s).

(** Every render runs [runningRef.current = running]. *)
Definition render (s : state) : state := with_runningRef (running s) s.

(** The component as first rendered. *)
Definition initial : state :=
  mkState (mkConfig 30 50 2 3 3 interval)
          (match generateEmptyGrid 30 50 with Ok g => g | Throw _ => [] end)
          false false [].

(** ** [src/src/App.jsx] *)

Module App.

(** The updater that [runSimulation] passes to [setGrid], with the
    values captured by the closure. *)
Definition step (c : config) (g : grid_t) : result grid_t :=
  array_mapM (λ row i,
    array_mapM (λ cell j,
      let* neighbors :=
        forEach (λ neighbors '(x, y),
          let newI := i + x in
          let newJ := j + y in
          if (newI >=? 0) && (newI <? numRows c) &&
             (newJ >=? 0) && (newJ <? numCols c)
          then match array_get g newI with
               | None => Throw TypeError
               | Some r => Ok (js_add neighbors (array_get r newJ))
               end
          else Ok neighbors) operations (Int 0) in
      if (cell =? 1) &&
         (js_lt neighbors (surviveMin c) || js_gt neighbors (surviveMax c))
      then Ok 0
      else if (cell =? 0) && js_eq neighbors (birthNum c) then Ok 1
      else Ok cell) row) g.

(** [runSimulation]: return at once when [runningRef.current] is false;
    otherwise update the grid and schedule the same closure again after
    the constant [interval]. *)
Definition runSimulation (c : config) (s : state) : result state :=
  if negb (runningRef s) then Ok s
  else
    let* g' := step c (grid s) in
    Ok (with_timers (timers s ++ [(interval, c)]) (with_grid g' s)).

(** The Start/Pause button:
    [setRunning(r => { if (!r) { runningRef.current = true;
    runSimulation() } return !r })], followed by the render. *)
Definition toggleRun (s : state) : result state :=
  if running s then Ok (render (with_running false s))
  else
    let* s1 := runSimulation (cfg s) (with_runningRef true s) in
    Ok (render (with_running true s1)).

(** A pending timer fires: the scheduled closure runs.  [setGrid] is
    reached only past the guard, and only then does the component
    render again. *)
Definition fire (k : nat) (s : state) : result state :=
  match timers s !! k with
  | None => Ok s
  | Some (_, c) =>
      let s0 := with_timers (delete k (timers s)) s in
      let* s1 := runSimulation c s0 in
      Ok (if runningRef s0 then render s1 else s1)
  end.

End App.

(** ** [src/unnamed/part_000] *)

Module Part000.

Definition step (c : config) (g : grid_t) : result grid_t :=
  array_mapM (λ row i,
    array_mapM (λ cell j,
      let* neighbors :=
        forEach (λ neighbors '(x, y),
          let newI := i + x in
          let newJ := j + y in
          (* Standard boundary checking *)
          if (newI >=? 0) && (newI <? numRows c) &&
             (newJ >=? 0) && (newJ <? numCols c)
          then match array_get g newI with
               | None => Throw TypeError
               | Some r => Ok (js_add neighbors (array_get r newJ))
               end
          else Ok neighbors) operations (Int 0) in
      if (cell =? 1) &&
         (js_lt neighbors (surviveMin c) || js_gt neighbors (surviveMax c))
      then Ok 0
      else if (cell =? 0) && js_eq neighbors (birthNum c) then Ok 1
      else Ok cell) row) g.

(** As in [App.jsx], but the delay is the captured [simulationSpeed]. *)
Definition runSimulation (c : config) (s : state) : result state :=
  if negb (runningRef s) then Ok s
  else
    let* g' := step c (grid s) in
    Ok (with_timers (timers s ++ [(simulationSpeed c, c)]) (with_grid g' s)).

Definition toggleRun (s : state) : result state :=
  if running s then Ok (render (with_running false s))
  else
    let* s1 := runSimulation (cfg s) (with_runningRef true s) in
    Ok (render (with_running true s1)).

Definition fire (k : nat) (s : state) : result state :=
  match timers s !! k with
  | None => Ok s
  | Some (_, c) =>
      let s0 := with_timers (delete k (timers s)) s in
      let* s1 := runSimulation c s0 in
      Ok (if runningRef s0 then render s1 else s1)
  end.

(** [createGlider]: an empty grid, five cells written, [setGrid].
    Nothing else is set. *)
Definition createGlider (s : state) : result state :=
  let* newGrid := generateEmptyGrid (numRows (cfg s)) (numCols (cfg s)) in
  let centerRow := numRows (cfg s) / 2 in
  let centerCol := numCols (cfg s) / 2 in
  let* newGrid := grid_set newGrid centerRow (centerCol + 1) 1 in
  let* newGrid := grid_set newGrid (centerRow + 1) (centerCol + 2) 1 in
  let* newGrid := grid_set newGrid (centerRow + 2) centerCol 1 in
  let* newGrid := grid_set newGrid (centerRow + 2) (centerCol + 1) 1 in
  let* newGrid := grid_set newGrid (centerRow + 2) (centerCol + 2) 1 in
  Ok (render (with_grid newGrid s)).

(** [createOscillator]: an empty grid, three cells written, [setGrid]. *)
Definition createOscillator (s : state) : result state :=
  let* newGrid := generateEmptyGrid (numRows (cfg s)) (numCols (cfg s)) in
  let centerRow := numRows (cfg s) / 2 in
  let centerCol := numCols (cfg s) / 2 in
  let* newGrid := grid_set newGrid (centerRow - 1) centerCol 1 in
  let* newGrid := grid_set newGrid centerRow centerCol 1 in
  let* newGrid := grid_set newGrid (centerRow + 1) centerCol 1 in
  Ok (render (with_grid newGrid s)).

End Part000.

(** ** Handlers with the same text in both source files *)

(** [handleCellClick(i, j)]: the two nested maps and [setGrid]. *)
Definition handleCellClick (i j : Z) (s : state) : state :=
  let newGrid :=
    array_map (λ row rowIdx,
      array_map (λ cell colIdx,
        if (rowIdx =? i) && (colIdx =? j)
        then (if negb (cell =? 0) then 0 else 1)
        else cell) row) (grid s) in
  render (with_grid newGrid s).

(** [handleClear]: [setGrid(generateEmptyGrid(numRows, numCols))] and
    [setRunning(false)]. *)
Definition handleClear (s : state) : result state :=
  let* g := generateEmptyGrid (numRows (cfg s)) (numCols (cfg s)) in
  Ok (render (with_running false (with_grid g s))).

(** What an event leaves behind.  [Returned]: the handler returned, and
    the state is the one after the render.  [Raised]: the handler threw;
    React reports the error, applies the updates queued before it and goes
    on with that state.  [Crashed]: a state updater threw during the
    render, which unmounts the component.  [OffGrid]: a resize stored a
    dimension that is not an integer; the component then holds these
    [numRows] and [numCols] and, if [generateEmptyGrid] returned, its
    grid, a state with dimensions that [config] does not hold and that is
    not followed further. *)
Inductive outcome :=
  | Returned (s : state)
  | Raised (e : exn) (s : state)
  | Crashed (e : exn)
  | OffGrid (rows cols : Q) (g : result grid_t).

(** [handleResize(rows, cols)]: [setNumRows(rows)] and [setNumCols(cols)]
    are queued before [generateEmptyGrid] is evaluated, so they take
    effect even when it throws; [setGrid] and [setRunning(false)] are
    reached only when it returns. *)
Definition handleResize (rows cols : Q) (s : state) : outcome :=
  if is_integer rows && is_integer cols then
    let c := cfg s in
    let c' := mkConfig (Qfloor rows) (Qfloor cols) (surviveMin c)
                       (surviveMax c) (birthNum c) (simulationSpeed c) in
    match generateEmptyGrid rows cols with
    | Ok g => Returned (render (with_running false (with_grid g (with_cfg c' s))))
    | Throw e => Raised e (render (with_cfg c' s))
    end
  else OffGrid rows cols (generateEmptyGrid rows cols).
Arguments handleResize (rows cols)%_Z s.

(** The [onChange] handlers of the three rule inputs:
    [setSurviveMin(Number(e.target.value))] and its two siblings, called
    here with the number [n] that [Number] returned. *)
Definition setSurviveMin (n : Z) (s : state) : state :=
  let c := cfg s in
  render (with_cfg (mkConfig (numRows c) (numCols c) n (surviveMax c)
                             (birthNum c) (simulationSpeed c)) s).
Definition setSurviveMax (n : Z) (s : state) : state :=
  let c := cfg s in
  render (with_cfg (mkConfig (numRows c) (numCols c) (surviveMin c) n
                             (birthNum c) (simulationSpeed c)) s).
Definition setBirthNum (n : Z) (s : state) : state :=
  let c := cfg s in
  render (with_cfg (mkConfig (numRows c) (numCols c) (surviveMin c)
                             (surviveMax c) n (simulationSpeed c)) s).

(** ** Specification-level notions *)

(** The all-dead grid of [rows] rows and [cols] columns. *)
Abbreviation dead_grid rows cols :=
  (replicate (Z.to_nat rows) (Some (replicate (Z.to_nat cols) (Some Dead)))).

(** A slot that holds [0] or [1]. *)
Definition binary (slot : option Z) : bool :=
  match slot with
  | Some v => (v =? Dead) || (v =? Alive)
  | None => false
  end.

(** A well-formed grid: exactly [rows] rows, each of exactly [cols] cells,
    each cell [Alive] or [Dead]. *)
Definition well_formed (rows cols : Z) (g : grid_t) : bool :=
  (Z.of_nat (length g) =? rows) &&
  forallb (λ r, match r with
                | Some row =>
                    (Z.of_nat (length row) =? cols) && forallb binary row
                | None => false
                end) g.

(** Every row index below [n] names a row of [g]. *)
Definition rows_exist (n : Z) (g : grid_t) : bool :=
  forallb (λ i, match array_get g i with Some _ => true | None => false end)
          (seqZ 0 n).

(** The number of rows and the length of each row. *)
Definition shape (g : grid_t) : list (option nat) :=
  (λ r : option (array Z), length <$> r) <$> g.

(** The cell at [(i, j)] exists and is alive; positions outside the grid
    are not alive. *)
Definition live (g : grid_t) (i j : Z) : bool :=
  match cell_at g i j with
  | Some v => v =? Alive
  | None => false
  end.

(** The Moore neighbourhood: all eight combinations of offsets in
    [{-1, 0, 1}] except [(0, 0)]. *)
Definition moore : list (Z * Z) :=
  [ (-1, -1); (-1, 0); (-1, 1); (0, -1); (0, 1); (1, -1); (1, 0); (1, 1) ].

(** The number of live cells among the Moore neighbours of [(i, j)]. *)
Definition live_neighbours (g : grid_t) (i j : Z) : Z :=
  Z.of_nat (length (List.filter (λ '(di, dj), live g (i + di) (j + dj)) moore)).

(** The positions of a [rows] by [cols] rectangle, row by row. *)
Definition positions (rows cols : Z) : list (Z * Z) :=
  i ← seqZ 0 rows; (λ j, (i, j)) <$> seqZ 0 cols.

(** The live positions of [g] within a [rows] by [cols] rectangle. *)
Definition live_cells (rows cols : Z) (g : grid_t) : list (Z * Z) :=
  List.filter (λ '(i, j), live g i j) (positions rows cols).

(** The grid of the given dimensions whose live cells are those of
    [cells], all others being dead. *)
Definition pattern_grid (rows cols : Z) (cells : list (Z * Z)) : grid_t :=
  (λ i, Some ((λ j, Some (if bool_decide ((i, j) ∈ cells) then Alive else Dead))
                <$> seqZ 0 cols)) <$> seqZ 0 rows.

(** The five cells of the glider and the three of the blinker, relative
    to the centre [(⌊rows/2⌋, ⌊cols/2⌋)]. *)
Definition glider_cells (rows cols : Z) : list (Z * Z) :=
  let cr := rows / 2 in
  let cc := cols / 2 in
  [ (cr, cc + 1); (cr + 1, cc + 2); (cr + 2, cc); (cr + 2, cc + 1);
    (cr + 2, cc + 2) ].

Definition blinker_cells (rows cols : Z) : list (Z * Z) :=
  let cr := rows / 2 in
  let cc := cols / 2 in
  [ (cr - 1, cc); (cr, cc); (cr + 1, cc) ].

(** ** The step, cell by cell *)

(** The parts of the callback of the inner [map]: what one direction
    vector adds to [neighbors], the count over all of [operations], and
    the rule applied to the count. *)
Definition probe (c : config) (g : grid_t) (i j : Z)
  (neighbors : number) (op : Z * Z) : result number :=
  let '(x, y) := op in
  let newI := i + x in
  let newJ := j + y in
  if (newI >=? 0) && (newI <? numRows c) &&
     (newJ >=? 0) && (newJ <? numCols c)
  then match array_get g newI with
       | None => Throw TypeError
       | Some r => Ok (js_add neighbors (array_get r newJ))
       end
  else Ok neighbors.

Definition count (c : config) (g : grid_t) (i j : Z) : result number :=
  forEach (probe c g i j) operations (Int 0).

(** The live cells among the positions [(i + x, j + y)] for [(x, y)] in
    [offs]. *)
Definition tally (g : grid_t) (i j : Z) (offs : list (Z * Z)) : Z :=
  foldr (λ '(x, y) acc, Z.b2z (live g (i + x) (j + y)) + acc) 0 offs.

Definition rule (c : config) (cell : Z) (neighbors : number) : result Z :=
  if (cell =? 1) &&
     (js_lt neighbors (surviveMin c) || js_gt neighbors (surviveMax c))
  then Ok 0
  else if (cell =? 0) && js_eq neighbors (birthNum c) then Ok 1
  else Ok cell.

(** The rule in the words of the specification, on an integer count. *)
Definition next_state (c : config) (cell n : Z) : Z :=
  if bool_decide (cell = Alive ∧ (n < surviveMin c ∨ n > surviveMax c))
  then Dead
  else if bool_decide (cell = Dead ∧ n = birthNum c) then Alive
  else cell.

(** ** Handlers that no step property depends on *)

(** The number that the literal [0.7] denotes: the double nearest to
    seven tenths, which lies just below it. *)
Definition threshold : Q := 3152519739159347 # 4503599627370496.

(** [handleRandom]: [draws k] is the value of the [k]-th call of
    [Math.random()], a double and so a rational; the calls are made cell
    by cell, row after row.  A cell is [1] when its draw is strictly
    above [0.7] and [0] otherwise.  [Array.from] gives the empty array for
    a length that is not positive and throws a [RangeError] for a length
    of 2^32 or more, before any draw; nothing is set in that case.
    ([part_000] and [App.jsx] have the same text.) *)
Definition handleRandom (draws : nat → Q) (s : state) : result state :=
  let numRows := numRows (cfg s) in
  let numCols := numCols (cfg s) in
  if numRows <=? 0 then Ok (render (with_grid [] s))
  else if 2 ^ 32 <=? numRows then Throw RangeError
  else if 2 ^ 32 <=? numCols then Throw RangeError
  else
    let rows :=
      (λ i, Some ((λ j, Some (if negb (Qle_bool
                                         (draws (Z.to_nat (i * numCols + j)))
                                         threshold)
                              then 1 else 0))
                    <$> seqZ 0 numCols)) <$> seqZ 0 numRows in
    Ok (render (with_grid rows s)).

(** [setSimulationSpeed(Number(e.target.value))], in [part_000] only. *)
Definition setSimulationSpeed (n : Z) (s : state) : state :=
  let c := cfg s in
  render (with_cfg (mkConfig (numRows c) (numCols c) (surviveMin c)
                             (surviveMax c) (birthNum c) n) s).

(** ** The component as a transition system ([part_000]) *)

Inductive event :=
  | StartPause
  | Clear
  | Random (draws : nat → Q)
  | Glider
  | Blinker
  | Resize (rows cols : Q)
  | Click (i j : Z)
  | SurviveMin (n : Z)
  | SurviveMax (n : Z)
  | BirthNum (n : Z)
  | Speed (n : Z)
  | Timer (k : nat).

(** A handler that throws before it has set anything leaves the state as
    it was. *)
Definition settle (s : state) (r : result state) : outcome :=
  match r with
  | Ok s' => Returned s'
  | Throw e => Raised e s
  end.

(** An exception of [runSimulation] is one of the updater passed to
    [setGrid]: it is thrown when React renders, and the component is
    unmounted. *)
Definition mount (r : result state) : outcome :=
  match r with
  | Ok s' => Returned s'
  | Throw e => Crashed e
  end.

Definition handle (e : event) (s : state) : outcome :=
  match e with
  | StartPause => mount (Part000.toggleRun s)
  | Clear => settle s (handleClear s)
  | Random draws => settle s (handleRandom draws s)
  | Glider => settle s (Part000.createGlider s)
  | Blinker => settle s (Part000.createOscillator s)
  | Resize rows cols => handleResize rows cols s
  | Click i j => Returned (handleCellClick i j s)
  | SurviveMin n => Returned (setSurviveMin n s)
  | SurviveMax n => Returned (setSurviveMax n s)
  | BirthNum n => Returned (setBirthNum n s)
  | Speed n => Returned (setSimulationSpeed n s)
  | Timer k => mount (Part000.fire k s)
  end.

(** The states the component can be in between two events. *)
Inductive reachable : state → Prop :=
  | reachable_initial : reachable initial
  | reachable_returned e s s' :
      reachable s → handle e s = Returned s' → reachable s'
  | reachable_raised e ex s s' :
      reachable s → handle e s = Raised ex s' → reachable s'.

(** After a render the ref mirrors the flag. *)
Definition rendered (s : state) : Prop := runningRef s = running s.

(** A tick that fires in [s] is discarded: the callback returns without a
    state change, in both versions, and firing the [k]-th pending timer
    leaves grid and run state as they are and schedules nothing. *)
Definition tick_discarded (c : config) (k : nat) (s : state) : Prop :=
  App.runSimulation c s = Ok s ∧
  Part000.runSimulation c s = Ok s ∧
  (∃ s', App.fire k s = Ok s' ∧ grid s' = grid s ∧ running s' = false ∧
         (length (timers s') ≤ length (timers s))%nat) ∧
  (∃ s', Part000.fire k s = Ok s' ∧ grid s' = grid s ∧ running s' = false ∧
         (length (timers s') ≤ length (timers s))%nat).

(** The classical rules (survive 2-3, birth 3) on a grid of the given
    dimensions. *)
Definition classical (rows cols : Z) : config :=
  mkConfig rows cols 2 3 3 interval.

(** The grid component of a handler's outcome. *)
Definition grid_of (r : result state) : result grid_t :=
  let* s := r in Ok (grid s).

(** The initial component after a press on Start. *)
Definition started : state :=
  match Part000.toggleRun initial with
  | Ok s => s
  | Throw _ => initial
  end.

(** A three by three grid holding a vertical blinker. *)
Definition small_blinker : grid_t :=
  pattern_grid 3 3 [(0, 1); (1, 1); (2, 1)].

(** Every row of the grid is there (no hole among the rows) and every
    filled cell holds [0] or [1]; rows may have holes and any length. *)
Definition filled_binary (g : grid_t) : Prop :=
  ∀ n r, g !! n = Some r →
    ∃ row, r = Some row ∧
           ∀ m v, row !! m = Some (Some v) → v = Dead ∨ v = Alive.

(** ** Patterns on the plane *)

(** [n] ticks of one closure: the step applied [n] times, stopping at the
    first exception. *)
Fixpoint steps (c : config) (n : nat) (g : grid_t) : result grid_t :=
  match n with
  | O => Ok g
  | S n' => let* g' := Part000.step c g in steps c n' g'
  end.

(** [cells] moved by [(di, dj)]. *)
Definition translate (di dj : Z) (cells : list (Z * Z)) : list (Z * Z) :=
  (λ '(a, b), (a + di, b + dj)) <$> cells.

Definition member (cells : list (Z * Z)) (x y : Z) : bool :=
  bool_decide ((x, y) ∈ cells).

(** The rule applied at [(x, y)] to a pattern on the unbounded plane, the
    pattern being the list of its live positions. *)
Definition plane_tally (cells : list (Z * Z)) (x y : Z) (offs : list (Z * Z)) : Z :=
  foldr (λ '(dx, dy) acc, Z.b2z (member cells (x + dx) (y + dy)) + acc) 0 offs.

Definition plane_next (c : config) (cells : list (Z * Z)) (x y : Z) : Z :=
  next_state c (Z.b2z (member cells x y)) (plane_tally cells x y operations).

Definition in_box (lo hi : Z) (p : Z * Z) : bool :=
  (lo <=? p.1) && (p.1 <=? hi) && (lo <=? p.2) && (p.2 <=? hi).

(** The positions of the square [[lo, hi] x [lo, hi]]. *)
Definition square (lo hi : Z) : list (Z * Z) :=
  x ← seqZ lo (hi - lo + 1); (λ y, (x, y)) <$> seqZ lo (hi - lo + 1).

(** A check by computation that the pattern [cells], which lies in the
    square from [lo] to [hi], becomes [cells'] in one generation on the
    plane: [cells'] lies within one cell of the square, the rule gives
    [cells'] at every position within one cell of the square, and no cell
    is born without live neighbours. *)
Definition evolves (c : config) (lo hi : Z) (cells cells' : list (Z * Z)) : bool :=
  forallb (in_box lo hi) cells &&
  forallb (in_box (lo - 1) (hi + 1)) cells' &&
  forallb (λ p, plane_next c cells p.1 p.2 =? Z.b2z (member cells' p.1 p.2))
          (square (lo - 1) (hi + 1)) &&
  negb (birthNum c =? 0).

(** The glider of [createGlider] relative to the centre, and its next
    three generations. *)
Definition glider0 : list (Z * Z) := [(0, 1); (1, 2); (2, 0); (2, 1); (2, 2)].
Definition glider1 : list (Z * Z) := [(1, 0); (1, 2); (2, 1); (2, 2); (3, 1)].
Definition glider2 : list (Z * Z) := [(1, 2); (2, 0); (2, 2); (3, 1); (3, 2)].
Definition glider3 : list (Z * Z) := [(1, 1); (2, 2); (2, 3); (3, 1); (3, 2)].

(** The blinker of [createOscillator] relative to the centre, upright and
    lying. *)
Definition blinker_upright : list (Z * Z) := [(-1, 0); (0, 0); (1, 0)].
Definition blinker_lying : list (Z * Z) := [(0, -1); (0, 0); (0, 1)].

(** * Lemmas *)

Lemma step_unfold c g :
  Part000.step c g =
  array_mapM (λ row i,
    array_mapM (λ cell j, let* n := count c g i j in rule c cell n) row) g.
Proof. reflexivity. Qed.

Lemma step_versions c g : App.step c g = Part000.step c g.
Proof. reflexivity. Qed.

(** ** Arrays *)

Lemma array_get_Some {A} (a : array A) i v :
  array_get a i = Some v ↔ 0 ≤ i ∧ a !! Z.to_nat i = Some (Some v).
Proof.
  unfold array_get. destruct (Z.ltb_spec i 0).
  - split; [done | lia].
  - destruct (a !! Z.to_nat i) as [[?|]|]; intuition congruence.
Qed.

Lemma array_get_of_nat {A} (a : array A) (n : nat) :
  array_get a (Z.of_nat n) = mjoin (a !! n).
Proof.
  unfold array_get. destruct (Z.ltb_spec (Z.of_nat n) 0); [lia|].
  rewrite Nat2Z.id. by destruct (a !! n) as [[?|]|].
Qed.

Lemma array_mapM_from_Ok {A B} (f : A → Z → result B) a : ∀ k b,
  array_mapM_from f k a = Ok b →
  length b = length a ∧
  ∀ n, match a !! n with
       | Some (Some x) =>
           ∃ y, f x (k + Z.of_nat n) = Ok y ∧ b !! n = Some (Some y)
       | Some None => b !! n = Some None
       | None => b !! n = None
       end.
Proof.
  induction a as [|[x|] a IH]; intros k b H; simpl in H.
  - inversion H. split; [done|]. by intros [|n].
  - destruct (f x k) as [y|] eqn:E; simpl in H; [|discriminate].
    destruct (array_mapM_from f (k + 1) a) as [bs|] eqn:E2; simpl in H;
      [|discriminate].
    inversion H; subst. destruct (IH _ _ E2) as [Hl Hn].
    split; [simpl; lia|]. intros [|n]; simpl.
    + exists y. by rewrite Z.add_0_r.
    + specialize (Hn n).
      replace (k + Z.of_nat (S n)) with (k + 1 + Z.of_nat n) by lia.
      done.
  - destruct (array_mapM_from f (k + 1) a) as [bs|] eqn:E2; simpl in H;
      [|discriminate].
    inversion H; subst. destruct (IH _ _ E2) as [Hl Hn].
    split; [simpl; lia|]. intros [|n]; simpl; [done|].
    specialize (Hn n).
    replace (k + Z.of_nat (S n)) with (k + 1 + Z.of_nat n) by lia.
    done.
Qed.

Lemma array_mapM_from_total {A B} (f : A → Z → result B) a : ∀ k,
  (∀ n x, a !! n = Some (Some x) → ∃ y, f x (k + Z.of_nat n) = Ok y) →
  ∃ b, array_mapM_from f k a = Ok b.
Proof.
  induction a as [|[x|] a IH]; intros k H; simpl.
  - by eexists.
  - destruct (H 0%nat x eq_refl) as [y Hy]. rewrite Z.add_0_r in Hy.
    rewrite Hy. simpl.
    destruct (IH (k + 1)) as [bs Hbs].
    { intros n x' Hn. destruct (H (S n) x' Hn) as [y' Hy'].
      exists y'. rewrite <- Hy'. f_equal. lia. }
    rewrite Hbs. by eexists.
  - destruct (IH (k + 1)) as [bs Hbs].
    { intros n x' Hn. destruct (H (S n) x' Hn) as [y' Hy'].
      exists y'. rewrite <- Hy'. f_equal. lia. }
    rewrite Hbs. by eexists.
Qed.
(** ** Well-formed grids *)

Lemma forallb_lookup {A} (f : A → bool) (l : list A) :
  forallb f l = true ↔ ∀ n x, l !! n = Some x → f x = true.
Proof.
  rewrite forallb_forall. split.
  - intros H n x Hn. apply H, list_elem_of_In, list_elem_of_lookup. eauto.
  - intros H x Hx. apply list_elem_of_In, list_elem_of_lookup in Hx as [n Hn]. eauto.
Qed.

Lemma binary_spec s : binary s = true ↔ s = Some Dead ∨ s = Some Alive.
Proof.
  unfold binary, Dead, Alive. destruct s as [v|]; [|intuition congruence].
  rewrite orb_true_iff, !Z.eqb_eq. intuition congruence.
Qed.

Lemma well_formed_spec rows cols g :
  well_formed rows cols g = true ↔
  Z.of_nat (length g) = rows ∧
  ∀ n r, g !! n = Some r →
    ∃ row, r = Some row ∧ Z.of_nat (length row) = cols ∧
           ∀ m s, row !! m = Some s → s = Some Dead ∨ s = Some Alive.
Proof.
  unfold well_formed. rewrite andb_true_iff, Z.eqb_eq, forallb_lookup.
  split; intros [Hl H]; split; try done; intros n r Hn.
  - specialize (H n r Hn). destruct r as [row|]; [|done].
    apply andb_true_iff in H as [H1 H2]. apply Z.eqb_eq in H1.
    exists row. split_and!; try done. intros m s Hm.
    apply binary_spec. rewrite forallb_lookup in H2. eauto.
  - destruct (H n r Hn) as (row & -> & H1 & H2).
    apply andb_true_iff. split; [by apply Z.eqb_eq|].
    apply forallb_lookup. intros m s Hm. apply binary_spec. eauto.
Qed.

Lemma well_formed_cell rows cols g i j :
  well_formed rows cols g = true → 0 ≤ i < rows → 0 ≤ j < cols →
  ∃ row v, array_get g i = Some row ∧ Z.of_nat (length row) = cols ∧
           array_get row j = Some v ∧ (v = Dead ∨ v = Alive).
Proof.
  intros [Hl H]%well_formed_spec Hi Hj.
  destruct (lookup_lt_is_Some_2 g (Z.to_nat i)) as [r Hr]; [lia|].
  destruct (H _ _ Hr) as (row & -> & Hc & Hb).
  destruct (lookup_lt_is_Some_2 row (Z.to_nat j)) as [s Hs]; [lia|].
  destruct (Hb _ _ Hs) as [-> | ->]; eexists row, _;
    (split_and!; [apply array_get_Some; split; [lia|done] | done
                 | apply array_get_Some; split; [lia|done] | auto]).
Qed.

Lemma well_formed_outside rows cols g i j :
  well_formed rows cols g = true → ¬ (0 ≤ i < rows ∧ 0 ≤ j < cols) →
  cell_at g i j = None.
Proof.
  intros [Hl H]%well_formed_spec Hout. unfold cell_at.
  destruct (array_get g i) as [row|] eqn:Hr; [|done].
  apply array_get_Some in Hr as [Hi Hr].
  pose proof (lookup_lt_Some _ _ _ Hr) as Hlt.
  destruct (H _ _ Hr) as (row' & [= <-] & Hc & _).
  destruct (array_get row j) as [v|] eqn:Hv; [|done].
  apply array_get_Some in Hv as [Hj Hv].
  pose proof (lookup_lt_Some _ _ _ Hv). lia.
Qed.
(** ** The neighbour count *)

Lemma probe_well_formed c g i j acc x y :
  well_formed (numRows c) (numCols c) g = true →
  probe c g i j (Int acc) (x, y) =
  Ok (Int (acc + Z.b2z (live g (i + x) (j + y)))).
Proof.
  intros Hwf. unfold probe.
  destruct ((i + x >=? 0) && (i + x <? numRows c) &&
            (j + y >=? 0) && (j + y <? numCols c)) eqn:Hb.
  - rewrite !andb_true_iff, !Z.geb_le, !Z.ltb_lt in Hb.
    destruct (well_formed_cell _ _ g (i + x) (j + y) Hwf)
      as (row & v & Hr & _ & Hv & Hbin); [lia..|].
    rewrite Hr, Hv. unfold live, cell_at. rewrite Hr, Hv. simpl.
    by destruct Hbin as [-> | ->].
  - unfold live. rewrite (well_formed_outside _ _ g _ _ Hwf).
    + simpl. by rewrite Z.add_0_r.
    + intros Hin. apply not_true_iff_false in Hb. apply Hb.
      rewrite !andb_true_iff, !Z.geb_le, !Z.ltb_lt. lia.
Qed.

Lemma forEach_probe c g i j :
  well_formed (numRows c) (numCols c) g = true →
  ∀ offs acc,
    forEach (probe c g i j) offs (Int acc) = Ok (Int (acc + tally g i j offs)).
Proof.
  intros Hwf. induction offs as [|[x y] offs IH]; intros acc; cbn [forEach tally foldr].
  - by rewrite Z.add_0_r.
  - rewrite probe_well_formed by done. cbn [bind]. rewrite IH.
    do 2 f_equal. unfold tally. lia.
Qed.

Lemma tally_operations g i j : tally g i j operations = live_neighbours g i j.
Proof.
  unfold live_neighbours, tally, operations, moore. cbn [foldr List.filter].
  generalize (live g (i + 0) (j + 1)) (live g (i + 0) (j + -1))
             (live g (i + 1) (j + -1)) (live g (i + -1) (j + 1))
             (live g (i + 1) (j + 1)) (live g (i + -1) (j + -1))
             (live g (i + 1) (j + 0)) (live g (i + -1) (j + 0)).
  intros [] [] [] [] [] [] [] []; reflexivity.
Qed.

Lemma count_well_formed c g i j :
  well_formed (numRows c) (numCols c) g = true →
  count c g i j = Ok (Int (live_neighbours g i j)).
Proof.
  intros Hwf. unfold count. rewrite forEach_probe by done.
  by rewrite tally_operations.
Qed.
(** ** The rule and the step *)

Lemma rule_Int c cell n : rule c cell (Int n) = Ok (next_state c cell n).
Proof.
  unfold rule, next_state, js_lt, js_gt, js_eq, Alive, Dead.
  rewrite Z.gtb_ltb.
  destruct (Z.eqb_spec cell 1), (Z.eqb_spec cell 0),
    (Z.ltb_spec n (surviveMin c)), (Z.ltb_spec (surviveMax c) n),
    (Z.eqb_spec n (birthNum c)); simpl;
    repeat case_bool_decide; try done; lia.
Qed.

Lemma rule_total c cell n : ∃ v, rule c cell n = Ok v.
Proof. unfold rule. repeat case_match; by eexists. Qed.

Lemma rule_NaN c cell : rule c cell NaN = Ok cell.
Proof. unfold rule. simpl. by rewrite !andb_false_r. Qed.

Lemma next_state_binary c v n :
  v = Dead ∨ v = Alive → next_state c v n = Dead ∨ next_state c v n = Alive.
Proof. unfold next_state. repeat case_bool_decide; auto. Qed.

Lemma rows_exist_spec n g :
  rows_exist n g = true ↔ ∀ i, 0 ≤ i < n → ∃ row, array_get g i = Some row.
Proof.
  unfold rows_exist. rewrite forallb_forall. split.
  - intros H i Hi. specialize (H i). 
    destruct (array_get g i); [by eexists|].
    exfalso. assert (false = true); [|done]. apply H.
    apply list_elem_of_In, elem_of_seqZ. lia.
  - intros H i Hi%list_elem_of_In%elem_of_seqZ.
    destruct (H i) as [row ->]; [lia|done].
Qed.

Lemma well_formed_rows_exist rows cols g :
  well_formed rows cols g = true → rows_exist rows g = true.
Proof.
  intros [Hl H]%well_formed_spec. apply rows_exist_spec. intros i Hi.
  destruct (lookup_lt_is_Some_2 g (Z.to_nat i)) as [r Hr]; [lia|].
  destruct (H _ _ Hr) as (row & -> & _). exists row.
  apply array_get_Some. split; [lia|done].
Qed.

Lemma probe_total c g i j acc op :
  rows_exist (numRows c) g = true → ∃ n, probe c g i j acc op = Ok n.
Proof.
  intros Hre. destruct op as [x y]. unfold probe.
  destruct ((i + x >=? 0) && (i + x <? numRows c) &&
            (j + y >=? 0) && (j + y <? numCols c)) eqn:Hb; [|by eexists].
  rewrite !andb_true_iff, !Z.geb_le, !Z.ltb_lt in Hb.
  destruct (proj1 (rows_exist_spec _ _) Hre (i + x)) as [row ->]; [lia|].
  by eexists.
Qed.

Lemma count_total c g i j :
  rows_exist (numRows c) g = true → ∃ n, count c g i j = Ok n.
Proof.
  intros Hre. unfold count. generalize (Int 0).
  induction operations as [|op ops IH]; intros acc; cbn [forEach].
  - by eexists.
  - destruct (probe_total c g i j acc op Hre) as [n ->]. cbn [bind]. apply IH.
Qed.

Lemma step_total c g :
  rows_exist (numRows c) g = true → ∃ g', Part000.step c g = Ok g'.
Proof.
  intros Hre. rewrite step_unfold. unfold array_mapM.
  apply array_mapM_from_total. intros n row _.
  apply array_mapM_from_total. intros m cell _.
  destruct (count_total c g (0 + Z.of_nat n) (0 + Z.of_nat m) Hre) as [k ->].
  cbn [bind]. apply rule_total.
Qed.

Lemma step_shape c g g' : Part000.step c g = Ok g' → shape g' = shape g.
Proof.
  rewrite step_unfold. unfold array_mapM. intros [Hl H]%array_mapM_from_Ok.
  unfold shape. apply list_eq. intros n. rewrite !list_lookup_fmap.
  specialize (H n). cbv beta in H. destruct (g !! n) as [[row|]|].
  - destruct H as (row' & [Hl' _]%array_mapM_from_Ok & ->). simpl. by rewrite Hl'.
  - by rewrite H.
  - by rewrite H.
Qed.

Lemma step_cell c g g' i j v :
  Part000.step c g = Ok g' → cell_at g i j = Some v →
  ∃ n v', count c g i j = Ok n ∧ rule c v n = Ok v' ∧ cell_at g' i j = Some v'.
Proof.
  rewrite step_unfold. unfold array_mapM, cell_at.
  intros [_ H]%array_mapM_from_Ok Hv.
  destruct (array_get g i) as [row|] eqn:Hr; [|done].
  apply array_get_Some in Hr as [Hi Hr]. apply array_get_Some in Hv as [Hj Hv].
  specialize (H (Z.to_nat i)). rewrite Hr in H. cbv beta in H.
  destruct H as (row' & [_ H]%array_mapM_from_Ok & Hr').
  specialize (H (Z.to_nat j)). rewrite Hv in H. cbv beta in H.
  destruct H as (v' & H & Hv').
  replace (0 + Z.of_nat (Z.to_nat i)) with i in H by lia.
  replace (0 + Z.of_nat (Z.to_nat j)) with j in H by lia.
  destruct (count c g i j) as [n|] eqn:Hn; [|done]. cbn [bind] in H.
  exists n, v'. split_and!; try done.
  rewrite (proj2 (array_get_Some g' i row')) by done.
  by apply array_get_Some.
Qed.

Lemma well_formed_transfer rows cols g g' :
  well_formed rows cols g = true → shape g' = shape g →
  (∀ i j, 0 ≤ i < rows → 0 ≤ j < cols →
          ∃ v, cell_at g' i j = Some v ∧ (v = Dead ∨ v = Alive)) →
  well_formed rows cols g' = true.
Proof.
  intros [Hl H]%well_formed_spec Hsh Hc. apply well_formed_spec.
  assert (Hlen : length g' = length g).
  { apply (f_equal length) in Hsh. unfold shape in Hsh.
    by rewrite !length_fmap in Hsh. }
  split; [lia|]. intros n r' Hr'.
  pose proof (lookup_lt_Some _ _ _ Hr') as Hn.
  destruct (lookup_lt_is_Some_2 g n) as [r Hr]; [lia|].
  destruct (H _ _ Hr) as (row & -> & Hcols & _).
  assert (Hsn : shape g' !! n = shape g !! n) by by rewrite Hsh.
  unfold shape in Hsn. rewrite !list_lookup_fmap, Hr, Hr' in Hsn.
  destruct r' as [row'|]; [|done]. injection Hsn as Hsn.
  exists row'. split_and!; [done | lia |]. intros m s Hm.
  pose proof (lookup_lt_Some _ _ _ Hm) as Hmlt.
  destruct (Hc (Z.of_nat n) (Z.of_nat m)) as (v & Hv & Hb); [lia..|].
  unfold cell_at in Hv. rewrite array_get_of_nat, Hr' in Hv. simpl in Hv.
  rewrite array_get_of_nat, Hm in Hv. simpl in Hv. subst s.
  destruct Hb as [-> | ->]; auto.
Qed.

Lemma step_well_formed c g :
  well_formed (numRows c) (numCols c) g = true →
  ∃ g', Part000.step c g = Ok g' ∧
        well_formed (numRows c) (numCols c) g' = true ∧
        ∀ i j v, cell_at g i j = Some v →
                 cell_at g' i j = Some (next_state c v (live_neighbours g i j)).
Proof.
  intros Hwf.
  destruct (step_total c g (well_formed_rows_exist _ _ _ Hwf)) as [g' Hg'].
  exists g'. split; [done|].
  assert (Hcell : ∀ i j v, cell_at g i j = Some v →
            cell_at g' i j = Some (next_state c v (live_neighbours g i j))).
  { intros i j v Hv. destruct (step_cell _ _ _ _ _ _ Hg' Hv) as (n & v' & Hn & Hru & Hv').
    rewrite count_well_formed in Hn by done. injection Hn as <-.
    rewrite rule_Int in Hru. by injection Hru as <-. }
  split; [|done].
  apply (well_formed_transfer _ _ g); [done | by eapply step_shape |].
  intros i j Hi Hj.
  destruct (well_formed_cell _ _ g i j Hwf Hi Hj) as (row & v & Hr & _ & Hv & Hb).
  exists (next_state c v (live_neighbours g i j)). split.
  - apply Hcell. unfold cell_at. by rewrite Hr.
  - by apply next_state_binary.
Qed.
(** ** Empty grids, pattern grids and cell writes *)

Lemma generateEmptyGrid_Ok (rows cols : Z) :
  0 < rows < 2 ^ 32 → 0 ≤ cols < 2 ^ 32 →
  generateEmptyGrid rows cols =
  Ok (replicate (Z.to_nat rows) (Some (replicate (Z.to_nat cols) (Some Dead)))).
Proof.
  intros Hr Hc. unfold generateEmptyGrid, is_integer. rewrite !Qfloor_Z.
  simpl Qnum. simpl Qden. rewrite Z.mod_1_r.
  destruct (Z.leb_spec rows 0); [lia|].
  destruct (Z.leb_spec (2 ^ 32) rows); [lia|].
  destruct (Z.leb_spec 0 cols); [|lia].
  destruct (Z.ltb_spec cols (2 ^ 32)); [|lia]. done.
Qed.

Lemma is_integer_Z (z : Z) : is_integer z = true.
Proof. unfold is_integer. simpl. by rewrite Z.mod_1_r. Qed.

(** A resize to integer dimensions. *)
Lemma handleResize_Z (rows cols : Z) s :
  handleResize rows cols s =
  let c' := mkConfig rows cols (surviveMin (cfg s)) (surviveMax (cfg s))
                     (birthNum (cfg s)) (simulationSpeed (cfg s)) in
  match generateEmptyGrid rows cols with
  | Ok g => Returned (render (with_running false (with_grid g (with_cfg c' s))))
  | Throw e => Raised e (render (with_cfg c' s))
  end.
Proof. unfold handleResize. by rewrite !is_integer_Z, !Qfloor_Z. Qed.

Lemma empty_well_formed rows cols :
  0 ≤ rows → 0 ≤ cols →
  well_formed rows cols
    (replicate (Z.to_nat rows) (Some (replicate (Z.to_nat cols) (Some Dead)))) = true.
Proof.
  intros Hr Hc. apply well_formed_spec. rewrite length_replicate.
  split; [lia|]. intros n r [-> _]%lookup_replicate.
  eexists. split_and!; [done | rewrite length_replicate; lia |].
  intros m s [-> _]%lookup_replicate. auto.
Qed.

Lemma empty_cell rows cols i j v :
  cell_at (replicate rows (Some (replicate cols (Some Dead)))) i j = Some v →
  v = Dead.
Proof.
  unfold cell_at. destruct (array_get _ i) as [row|] eqn:Hr; [|done].
  apply array_get_Some in Hr as [_ [[= ->] _]%lookup_replicate].
  by intros [_ [[= ->] _]%lookup_replicate]%array_get_Some.
Qed.

Lemma empty_live rows cols i j :
  live (replicate rows (Some (replicate cols (Some Dead)))) i j = false.
Proof.
  unfold live. destruct (cell_at _ i j) as [v|] eqn:Hv; [|done].
  by apply empty_cell in Hv as ->.
Qed.

Lemma empty_live_neighbours rows cols i j :
  live_neighbours (replicate rows (Some (replicate cols (Some Dead)))) i j = 0.
Proof.
  unfold live_neighbours, moore. cbn [List.filter]. by rewrite !empty_live.
Qed.

Lemma grid_ext rows cols (g1 g2 : grid_t) :
  well_formed rows cols g1 = true → well_formed rows cols g2 = true →
  (∀ i j, 0 ≤ i < rows → 0 ≤ j < cols → cell_at g1 i j = cell_at g2 i j) →
  g1 = g2.
Proof.
  intros [Hl1 H1]%well_formed_spec [Hl2 H2]%well_formed_spec Heq.
  apply list_eq. intros n.
  destruct (decide (n < length g1)%nat) as [Hn|Hn]; cycle 1.
  { rewrite !lookup_ge_None_2; [done | lia..]. }
  destruct (lookup_lt_is_Some_2 g1 n) as [r1 Hr1]; [lia|].
  destruct (lookup_lt_is_Some_2 g2 n) as [r2 Hr2]; [lia|].
  destruct (H1 _ _ Hr1) as (row1 & -> & Hc1 & Hb1).
  destruct (H2 _ _ Hr2) as (row2 & -> & Hc2 & Hb2).
  rewrite Hr1, Hr2. do 2 f_equal. apply list_eq. intros m.
  destruct (decide (m < length row1)%nat) as [Hm|Hm]; cycle 1.
  { rewrite !lookup_ge_None_2; [done | lia..]. }
  specialize (Heq (Z.of_nat n) (Z.of_nat m)). unfold cell_at in Heq.
  rewrite !array_get_of_nat, Hr1, Hr2 in Heq. simpl in Heq.
  rewrite !array_get_of_nat in Heq.
  destruct (lookup_lt_is_Some_2 row1 m) as [s1 Hs1]; [lia|].
  destruct (lookup_lt_is_Some_2 row2 m) as [s2 Hs2]; [lia|].
  rewrite Hs1, Hs2 in Heq |- *. simpl in Heq.
  destruct (Hb1 _ _ Hs1) as [-> | ->], (Hb2 _ _ Hs2) as [-> | ->];
    try done; exfalso; (assert (Some Dead = Some Alive ∨ Some Alive = Some Dead) as [?|?];
      [ (left; apply Heq; lia) || (right; apply Heq; lia) | done | done]).
Qed.

Lemma pattern_grid_well_formed rows cols cells :
  0 ≤ rows → 0 ≤ cols → well_formed rows cols (pattern_grid rows cols cells) = true.
Proof.
  intros Hr Hc. apply well_formed_spec. unfold pattern_grid.
  rewrite length_fmap, length_seqZ. split; [lia|].
  intros n r Hn. rewrite list_lookup_fmap in Hn.
  destruct (seqZ 0 rows !! n) as [i|]; [|done]. injection Hn as <-.
  eexists. split_and!; [done | rewrite length_fmap, length_seqZ; lia |].
  intros m s Hm. rewrite list_lookup_fmap in Hm.
  destruct (seqZ 0 cols !! m) as [j|]; [|done]. injection Hm as <-.
  case_bool_decide; auto.
Qed.

Lemma pattern_grid_cell rows cols cells i j :
  0 ≤ i < rows → 0 ≤ j < cols →
  cell_at (pattern_grid rows cols cells) i j =
  Some (if bool_decide ((i, j) ∈ cells) then Alive else Dead).
Proof.
  intros Hi Hj. unfold cell_at, pattern_grid.
  rewrite (proj2 (array_get_Some _ i
    ((λ j, Some (if bool_decide ((i, j) ∈ cells) then Alive else Dead)) <$> seqZ 0 cols))).
  - apply array_get_Some. split; [lia|]. rewrite list_lookup_fmap.
    rewrite (proj2 (lookup_seqZ 0 cols (Z.to_nat j) j)); [done|lia].
  - split; [lia|]. rewrite list_lookup_fmap.
    rewrite (proj2 (lookup_seqZ 0 rows (Z.to_nat i) i)); [done|lia].
Qed.

Lemma grid_set_well_formed rows cols g r c v :
  well_formed rows cols g = true → 0 ≤ r < rows → 0 ≤ c < cols →
  v = Dead ∨ v = Alive →
  ∃ g', grid_set g r c v = Ok g' ∧ well_formed rows cols g' = true ∧
        ∀ i j, cell_at g' i j =
               if bool_decide (i = r ∧ j = c) then Some v else cell_at g i j.
Proof.
  intros Hwf Hr Hc Hv.
  destruct (well_formed_cell _ _ g r c Hwf Hr Hc) as (row & v0 & Hrow & Hlen & _).
  unfold grid_set. rewrite Hrow. eexists. split; [done|].
  assert (Hset : array_set row c v = <[Z.to_nat c := Some v]> row).
  { unfold array_set. destruct (Z.ltb_spec c 0); [lia|].
    destruct (Z.ltb_spec c (Z.of_nat (length row))); [done|lia]. }
  rewrite Hset. clear Hset.
  pose proof Hwf as [Hl H]%well_formed_spec.
  apply array_get_Some in Hrow as [_ Hrow].
  assert (Hcells : ∀ i j,
    cell_at (<[Z.to_nat r := Some (<[Z.to_nat c := Some v]> row)]> g) i j =
    if bool_decide (i = r ∧ j = c) then Some v else cell_at g i j).
  { intros i j. unfold cell_at, array_get.
    destruct (Z.ltb_spec i 0).
    { rewrite bool_decide_eq_false_2; [done|lia]. }
    destruct (decide (i = r)) as [->|Hne].
    - rewrite list_lookup_insert_eq by lia. rewrite Hrow.
      destruct (Z.ltb_spec j 0).
      { rewrite bool_decide_eq_false_2; [done|lia]. }
      destruct (decide (j = c)) as [->|Hnc].
      + rewrite list_lookup_insert_eq by lia.
        by rewrite bool_decide_eq_true_2.
      + rewrite list_lookup_insert_ne by lia.
        rewrite bool_decide_eq_false_2; [done|tauto].
    - rewrite list_lookup_insert_ne by lia.
      rewrite bool_decide_eq_false_2; [done|tauto]. }
  split; [|done].
  apply (well_formed_transfer _ _ g); [done| |].
  - unfold shape. apply list_eq. intros n. rewrite !list_lookup_fmap.
    destruct (decide (n = Z.to_nat r)) as [->|Hne].
    + rewrite list_lookup_insert_eq by lia. rewrite Hrow. simpl.
      by rewrite length_insert.
    + by rewrite list_lookup_insert_ne.
  - intros i j Hi Hj. rewrite Hcells. case_bool_decide; [eauto|].
    destruct (well_formed_cell _ _ g i j Hwf Hi Hj) as (row' & v' & Hr' & _ & Hv' & Hb).
    exists v'. unfold cell_at. by rewrite Hr'.
Qed.
(** ** The seeders *)

(** One [newGrid[r][c] = 1] on a well-formed grid, inside its bounds. *)
Ltac write_cell H Hwf Hcell :=
  match goal with
  | |- context [grid_set ?g ?r ?c ?v] =>
      let g' := fresh "g" in
      let E := fresh "E" in
      destruct (grid_set_well_formed _ _ g r c v H) as (g' & E & Hwf & Hcell);
      [lia | lia | by right | rewrite E; cbn [bind]]
  end.

Lemma createGlider_spec s :
  5 ≤ numRows (cfg s) < 2 ^ 32 → 5 ≤ numCols (cfg s) < 2 ^ 32 →
  Part000.createGlider s =
  Ok (render (with_grid
        (pattern_grid (numRows (cfg s)) (numCols (cfg s))
           (glider_cells (numRows (cfg s)) (numCols (cfg s)))) s)).
Proof.
  intros Hr Hc. unfold Part000.createGlider.
  set (rows := numRows (cfg s)) in *. set (cols := numCols (cfg s)) in *.
  rewrite generateEmptyGrid_Ok by lia. cbn [bind].
  pose proof (empty_well_formed rows cols ltac:(lia) ltac:(lia)) as Hwf0.
  assert (0 ≤ rows / 2 ∧ rows / 2 + 2 < rows) by (Z.div_mod_to_equations; lia).
  assert (0 ≤ cols / 2 ∧ cols / 2 + 2 < cols) by (Z.div_mod_to_equations; lia).
  write_cell Hwf0 Hwf1 Hc1. write_cell Hwf1 Hwf2 Hc2. write_cell Hwf2 Hwf3 Hc3.
  write_cell Hwf3 Hwf4 Hc4. write_cell Hwf4 Hwf5 Hc5.
  do 3 f_equal. apply (grid_ext rows cols); [done | apply pattern_grid_well_formed; lia |].
  intros i j Hi Hj. rewrite pattern_grid_cell by done.
  rewrite Hc5, Hc4, Hc3, Hc2, Hc1.
  destruct (well_formed_cell _ _ _ i j Hwf0 Hi Hj) as (row & v & Hrow & _ & Hv & _).
  assert (Hd : cell_at (replicate (Z.to_nat rows)
                 (Some (replicate (Z.to_nat cols) (Some Dead)))) i j = Some Dead).
  { unfold cell_at. rewrite Hrow, Hv. f_equal. eapply empty_cell.
    unfold cell_at. by rewrite Hrow. }
  rewrite Hd. unfold glider_cells. fold rows cols.
  set (cr := rows / 2) in *. set (cc := cols / 2) in *.
  assert (Hmem : (i, j) ∈ [(cr, cc + 1); (cr + 1, cc + 2); (cr + 2, cc);
                           (cr + 2, cc + 1); (cr + 2, cc + 2)] ↔
                 (i = cr ∧ j = cc + 1) ∨ (i = cr + 1 ∧ j = cc + 2) ∨
                 (i = cr + 2 ∧ j = cc) ∨ (i = cr + 2 ∧ j = cc + 1) ∨
                 (i = cr + 2 ∧ j = cc + 2)).
  { rewrite !elem_of_cons, elem_of_nil, !pair_equal_spec. tauto. }
  rewrite (bool_decide_ext _ _ Hmem).
  repeat case_bool_decide; try done; exfalso; tauto.
Qed.

Lemma createOscillator_spec s :
  3 ≤ numRows (cfg s) < 2 ^ 32 → 1 ≤ numCols (cfg s) < 2 ^ 32 →
  Part000.createOscillator s =
  Ok (render (with_grid
        (pattern_grid (numRows (cfg s)) (numCols (cfg s))
           (blinker_cells (numRows (cfg s)) (numCols (cfg s)))) s)).
Proof.
  intros Hr Hc. unfold Part000.createOscillator.
  set (rows := numRows (cfg s)) in *. set (cols := numCols (cfg s)) in *.
  rewrite generateEmptyGrid_Ok by lia. cbn [bind].
  pose proof (empty_well_formed rows cols ltac:(lia) ltac:(lia)) as Hwf0.
  assert (1 ≤ rows / 2 ∧ rows / 2 + 1 < rows) by (Z.div_mod_to_equations; lia).
  assert (0 ≤ cols / 2 ∧ cols / 2 < cols) by (Z.div_mod_to_equations; lia).
  write_cell Hwf0 Hwf1 Hc1. write_cell Hwf1 Hwf2 Hc2. write_cell Hwf2 Hwf3 Hc3.
  do 3 f_equal. apply (grid_ext rows cols); [done | apply pattern_grid_well_formed; lia |].
  intros i j Hi Hj. rewrite pattern_grid_cell by done.
  rewrite Hc3, Hc2, Hc1.
  destruct (well_formed_cell _ _ _ i j Hwf0 Hi Hj) as (row & v & Hrow & _ & Hv & _).
  assert (Hd : cell_at (replicate (Z.to_nat rows)
                 (Some (replicate (Z.to_nat cols) (Some Dead)))) i j = Some Dead).
  { unfold cell_at. rewrite Hrow, Hv. f_equal. eapply empty_cell.
    unfold cell_at. by rewrite Hrow. }
  rewrite Hd. unfold blinker_cells. fold rows cols.
  set (cr := rows / 2) in *. set (cc := cols / 2) in *.
  assert (Hmem : (i, j) ∈ [(cr - 1, cc); (cr, cc); (cr + 1, cc)] ↔
                 (i = cr - 1 ∧ j = cc) ∨ (i = cr ∧ j = cc) ∨ (i = cr + 1 ∧ j = cc)).
  { rewrite !elem_of_cons, elem_of_nil, !pair_equal_spec. tauto. }
  rewrite (bool_decide_ext _ _ Hmem).
  repeat case_bool_decide; try done; exfalso; tauto.
Qed.

(** ** The cell toggle *)

Lemma array_map_lookup {A B} (f : A → Z → B) (a : array A) n :
  array_map f a !! n = (λ slot, (λ x, f x (Z.of_nat n)) <$> slot) <$> a !! n.
Proof. unfold array_map. by rewrite list_lookup_imap. Qed.

Lemma array_get_map {A B} (f : A → Z → B) (a : array A) i :
  array_get (array_map f a) i = (λ x, f x i) <$> array_get a i.
Proof.
  unfold array_get. destruct (Z.ltb_spec i 0); [done|].
  rewrite array_map_lookup. destruct (a !! Z.to_nat i) as [[x|]|]; simpl; try done.
  by rewrite Z2Nat.id.
Qed.

Lemma handleCellClick_cell i j s i' j' :
  cell_at (grid (handleCellClick i j s)) i' j' =
  (λ cell, if (i' =? i) && (j' =? j)
           then (if negb (cell =? 0) then 0 else 1) else cell)
    <$> cell_at (grid s) i' j'.
Proof.
  unfold handleCellClick, cell_at. cbn [grid render with_grid with_runningRef].
  rewrite array_get_map. destruct (array_get (grid s) i') as [row|]; simpl; [|done].
  by rewrite array_get_map.
Qed.
(** ** The run loop: the ref mirrors the flag in every reachable state *)

Lemma rendered_render s : rendered (render s).
Proof. done. Qed.

Lemma runSimulation_stopped c s :
  runningRef s = false →
  App.runSimulation c s = Ok s ∧ Part000.runSimulation c s = Ok s.
Proof.
  intros H. unfold App.runSimulation, Part000.runSimulation. by rewrite H.
Qed.

Ltac bind_cases H :=
  repeat match type of H with
         | bind ?m _ = _ => destruct m; cbn [bind] in H; [|discriminate H]
         end.

Lemma fire_rendered k s s' :
  rendered s → Part000.fire k s = Ok s' → rendered s'.
Proof.
  unfold Part000.fire, rendered. intros Hs H.
  destruct (timers s !! k) as [[d c]|]; [|by injection H as <-].
  destruct (runningRef s) eqn:Href.
  - cbn [runningRef with_timers] in H. rewrite Href in H.
    bind_cases H. by injection H as <-.
  - destruct (runSimulation_stopped c (with_timers (delete k (timers s)) s))
      as [_ Hp]; [done|].
    rewrite Hp in H. cbn [bind runningRef with_timers] in H. rewrite Href in H.
    injection H as <-. cbn. congruence.
Qed.

Lemma settle_Returned s r s' : settle s r = Returned s' → r = Ok s'.
Proof. destruct r; simpl; by intros [= ->]. Qed.

Lemma settle_Raised s r e s' : settle s r = Raised e s' → r = Throw e ∧ s' = s.
Proof. destruct r; simpl; by intros [= -> ->]. Qed.

Lemma mount_Returned r s' : mount r = Returned s' → r = Ok s'.
Proof. destruct r; simpl; by intros [= ->]. Qed.

Lemma mount_Raised r e s' : mount r ≠ Raised e s'.
Proof. by destruct r. Qed.

Lemma result_rendered (r : result state) s' :
  (∀ s1, r = Ok s1 → rendered s1) → r = Ok s' → rendered s'.
Proof. eauto. Qed.

Lemma handler_rendered s s' :
  (Part000.toggleRun s = Ok s' ∨ handleClear s = Ok s' ∨
   Part000.createGlider s = Ok s' ∨ Part000.createOscillator s = Ok s' ∨
   (∃ draws, handleRandom draws s = Ok s')) →
  rendered s'.
Proof.
  intros [H | [H | [H | [H | [draws H]]]]].
  - unfold Part000.toggleRun in H. destruct (running s).
    + injection H as <-. apply rendered_render.
    + bind_cases H. injection H as <-. apply rendered_render.
  - unfold handleClear in H. bind_cases H.
    injection H as <-. apply rendered_render.
  - unfold Part000.createGlider in H. bind_cases H.
    injection H as <-. apply rendered_render.
  - unfold Part000.createOscillator in H. bind_cases H.
    injection H as <-. apply rendered_render.
  - unfold handleRandom in H. cbv zeta in H.
    repeat case_match; try done; injection H as <-; apply rendered_render.
Qed.

Lemma handleResize_rendered rows cols s s' :
  (handleResize rows cols s = Returned s' ∨
   ∃ e, handleResize rows cols s = Raised e s') →
  rendered s'.
Proof.
  unfold handleResize. cbv zeta.
  destruct (is_integer rows && is_integer cols); [|by intros [|[]]].
  destruct (generateEmptyGrid rows cols);
    intros [H | [ex H]]; try done; simplify_eq; apply rendered_render.
Qed.

Lemma handle_rendered e s s' :
  rendered s →
  (handle e s = Returned s' ∨ ∃ ex, handle e s = Raised ex s') →
  rendered s'.
Proof.
  intros Hs H. destruct e; cbn [handle] in H;
    try (destruct H as [[= <-] | [ex [=]]]; apply rendered_render);
    try (destruct H as [H%settle_Returned | [ex [_ ->]%settle_Raised]];
         [apply (handler_rendered s); eauto 10 | done]).
  - destruct H as [H%mount_Returned | [ex H]]; [|by apply mount_Raised in H].
    apply (handler_rendered s); eauto.
  - by apply (handleResize_rendered rows cols s).
  - destruct H as [H%mount_Returned | [ex H]]; [|by apply mount_Raised in H].
    by eapply fire_rendered.
Qed.

Lemma reachable_rendered s : reachable s → rendered s.
Proof.
  induction 1 as [|e s s' _ IH H|e ex s s' _ IH H]; [done| |];
    eapply handle_rendered; eauto.
Qed.

(** * The claims *)

(** C1.  On a well-formed grid one step succeeds, in both versions, and
    gives a well-formed grid in which every cell follows the rule on the
    pre-step grid: the count of a cell is the number of live cells among
    its eight Moore neighbours, positions outside the grid never being
    live (no wraparound); an alive cell becomes dead exactly when its
    count is below [surviveMin] or above [surviveMax], a dead cell becomes
    alive exactly when its count equals [birthNum], and a cell changes in
    no other case. *)
Theorem step_applies_rule (c : config) (g : grid_t) :
  well_formed (numRows c) (numCols c) g = true →
  ∃ g',
    App.step c g = Ok g' ∧ Part000.step c g = Ok g' ∧
    well_formed (numRows c) (numCols c) g' = true ∧
    (∀ i j, live g i j = true → 0 ≤ i < numRows c ∧ 0 ≤ j < numCols c) ∧
    ∀ i j, 0 ≤ i < numRows c → 0 ≤ j < numCols c →
      let n := live_neighbours g i j in
      (cell_at g i j = Some Alive →
         (cell_at g' i j = Some Dead ↔ n < surviveMin c ∨ n > surviveMax c)) ∧
      (cell_at g i j = Some Dead →
         (cell_at g' i j = Some Alive ↔ n = birthNum c)) ∧
      (cell_at g' i j ≠ cell_at g i j →
         (cell_at g i j = Some Alive ∧ (n < surviveMin c ∨ n > surviveMax c)) ∨
         (cell_at g i j = Some Dead ∧ n = birthNum c)).
Proof.
  intros Hwf. destruct (step_well_formed c g Hwf) as (g' & Hstep & Hwf' & Hcell).
  exists g'. split_and!; try done.
  - intros i j Hl.
    destruct (decide (0 ≤ i < numRows c ∧ 0 ≤ j < numCols c)) as [|Hout]; [done|].
    unfold live in Hl. by rewrite (well_formed_outside _ _ g i j Hwf Hout) in Hl.
  - intros i j Hi Hj n.
    destruct (well_formed_cell _ _ g i j Hwf Hi Hj) as (row & v & Hr & _ & Hv & Hb).
    assert (Hg : cell_at g i j = Some v) by (unfold cell_at; by rewrite Hr).
    rewrite (Hcell i j v Hg), Hg. fold n. unfold next_state, Alive, Dead in *.
    destruct Hb as [-> | ->]; repeat case_bool_decide;
      split_and!; try (intros [= ?]); try split; try intros ?;
      try done; try lia; try tauto.
Qed.

Lemma step_applies_rule_witness :
  well_formed 3 3 small_blinker = true ∧
  ∃ g', Part000.step (classical 3 3) small_blinker = Ok g' ∧
        cell_at g' 1 0 = Some Alive ∧ cell_at g' 0 1 = Some Dead.
Proof.
  split; [reflexivity|].
  destruct (step_applies_rule (classical 3 3) small_blinker eq_refl)
    as (g' & _ & Hs & _ & _ & H).
  exists g'. split; [exact Hs|].
  destruct (H 1 0) as (_ & Hborn & _); [simpl; lia | simpl; lia |].
  destruct (H 0 1) as (Hdie & _ & _); [simpl; lia | simpl; lia |].
  split.
  - apply Hborn; reflexivity.
  - apply Hdie; [reflexivity | left; vm_compute; reflexivity].
Defined.

(** C2.  Under the classical rules, the ten by ten grid that
    [createOscillator] builds has exactly the vertical triple (4,5),
    (5,5), (6,5) alive; one step gives exactly the horizontal triple
    (5,4), (5,5), (5,6), and a second step gives back the vertical
    triple. *)
Theorem blinker_oscillates :
  let c := classical 10 10 in
  let vertical := pattern_grid 10 10 [(4, 5); (5, 5); (6, 5)] in
  let horizontal := pattern_grid 10 10 [(5, 4); (5, 5); (5, 6)] in
  grid_of (Part000.createOscillator (with_cfg c initial)) = Ok vertical ∧
  live_cells 10 10 vertical = [(4, 5); (5, 5); (6, 5)] ∧
  Part000.step c vertical = Ok horizontal ∧
  live_cells 10 10 horizontal = [(5, 4); (5, 5); (5, 6)] ∧
  well_formed 10 10 horizontal = true ∧
  Part000.step c horizontal = Ok vertical.
Proof. vm_compute. repeat split. Qed.

(** C3, as stated, fails: after Start the component is running, and
    [createGlider] and [createOscillator] both leave it running, with the
    scheduled tick still pending; that tick, when it fires, advances the
    seeded grid. *)
Lemma seed_leaves_run_state :
  running started = true ∧
  ∃ s1 s2 s3,
    Part000.createGlider started = Ok s1 ∧ running s1 = true ∧
    Part000.createOscillator started = Ok s2 ∧ running s2 = true ∧
    timers s1 = timers started ∧ timers s1 ≠ [] ∧
    Part000.fire 0 s1 = Ok s3 ∧ grid s3 ≠ grid s1.
Proof.
  split; [reflexivity|].
  eexists _, _, _.
  split; [vm_compute; reflexivity|]. split; [reflexivity|].
  split; [vm_compute; reflexivity|]. split; [reflexivity|].
  split; [reflexivity|]. split; [vm_compute; discriminate|].
  split; [vm_compute; reflexivity|]. vm_compute; discriminate.
Qed.

(** C3, amended.  A seed command, whenever it returns, leaves the run
    state, the pending ticks and the configuration as they are; and it
    returns with the grid replaced by its pattern grid, whatever the grid
    was before, when the pattern fits and the dimensions are array
    lengths: at least five rows and five columns for the glider, at least
    three rows and one column for the blinker, below 2^32. *)
Theorem seed_replaces_grid_only (s : state) :
  (∀ s', Part000.createGlider s = Ok s' ∨ Part000.createOscillator s = Ok s' →
         running s' = running s ∧ timers s' = timers s ∧ cfg s' = cfg s) ∧
  (5 ≤ numRows (cfg s) < 2 ^ 32 → 5 ≤ numCols (cfg s) < 2 ^ 32 →
     ∃ s1, Part000.createGlider s = Ok s1 ∧
           grid s1 = pattern_grid (numRows (cfg s)) (numCols (cfg s))
                       (glider_cells (numRows (cfg s)) (numCols (cfg s)))) ∧
  (3 ≤ numRows (cfg s) < 2 ^ 32 → 1 ≤ numCols (cfg s) < 2 ^ 32 →
     ∃ s2, Part000.createOscillator s = Ok s2 ∧
           grid s2 = pattern_grid (numRows (cfg s)) (numCols (cfg s))
                       (blinker_cells (numRows (cfg s)) (numCols (cfg s)))).
Proof.
  split_and!.
  - intros s' [H | H].
    + unfold Part000.createGlider in H. bind_cases H. by injection H as <-.
    + unfold Part000.createOscillator in H. bind_cases H. by injection H as <-.
  - intros Hr Hc. eexists. by rewrite createGlider_spec.
  - intros Hr Hc. eexists. by rewrite createOscillator_spec.
Qed.

Lemma seed_replaces_grid_only_witness :
  ∃ s1 s2,
    Part000.createGlider started = Ok s1 ∧
    Part000.createOscillator started = Ok s2 ∧
    running s1 = true ∧ running s2 = true.
Proof.
  destruct (seed_replaces_grid_only started) as (Hrun & Hg & Hb).
  destruct Hg as (s1 & E1 & _); [vm_compute; split; [discriminate | reflexivity]..|].
  destruct Hb as (s2 & E2 & _); [vm_compute; split; [discriminate | reflexivity]..|].
  exists s1, s2. split; [exact E1|]. split; [exact E2|].
  destruct (Hrun s1 (or_introl E1)) as (R1 & _).
  destruct (Hrun s2 (or_intror E2)) as (R2 & _).
  split; [rewrite R1 | rewrite R2]; reflexivity.
Defined.

(** C4.  A tick that fires while the run state is Stopped returns at the
    guard on [runningRef]: the grid is left as it was and nothing is
    scheduled.  In particular, pressing Pause while running stops the
    component without touching the grid, and every tick that fires
    afterwards is discarded. *)
Theorem stopped_tick_discarded (s : state) (c : config) (k : nat) :
  rendered s →
  (running s = false → tick_discarded c k s) ∧
  (running s = true →
     ∃ sp, App.toggleRun s = Ok sp ∧ Part000.toggleRun s = Ok sp ∧
           running sp = false ∧ grid sp = grid s ∧ timers sp = timers s ∧
           tick_discarded c k sp).
Proof.
  assert (Hgen : ∀ s, runningRef s = false → running s = false →
                      tick_discarded c k s).
  { clear s. intros s Href Hrun.
    destruct (runSimulation_stopped c s Href) as [Ha Hp].
    split; [done|]. split; [done|].
    unfold App.fire, Part000.fire.
    destruct (timers s !! k) as [[d c']|] eqn:Hk.
    - destruct (runSimulation_stopped c' (with_timers (delete k (timers s)) s) Href)
        as [-> ->].
      cbn [bind runningRef with_timers]. rewrite Href.
      split; eexists; (split; [done|]); cbn; split_and!; try done;
        rewrite length_delete; [lia | done | lia | done].
    - split; eexists; (split; [done|]); by split_and!. }
  intros Hs. split; intros Hrun.
  - apply Hgen; [|done]. unfold rendered in Hs. congruence.
  - exists (render (with_running false s)).
    unfold App.toggleRun, Part000.toggleRun. rewrite Hrun.
    split_and!; try done. by apply Hgen.
Qed.

Lemma stopped_tick_discarded_witness :
  rendered started ∧ running started = true ∧
  ∃ sp, Part000.toggleRun started = Ok sp ∧ running sp = false ∧
        grid sp = grid started ∧ tick_discarded (cfg started) 0 sp.
Proof.
  assert (H : rendered started) by reflexivity.
  split; [exact H|]. split; [reflexivity|].
  destruct (proj2 (stopped_tick_discarded started (cfg started) 0 H) eq_refl)
    as (sp & _ & E & R & G & _ & D).
  exists sp. split; [exact E|]. split; [exact R|]. split; [exact G | exact D].
Defined.

(** C5.  With [birthNum = 0], one step on the all-dead grid of any
    positive dimensions succeeds and gives a grid of the same dimensions
    in which every cell is alive.  (The all-dead grid is the one that
    [generateEmptyGrid] returns, for dimensions below 2^32.) *)
Theorem birth_zero_fills_grid (c : config) :
  0 < numRows c → 0 < numCols c → birthNum c = 0 →
  ∃ g0 g1,
    g0 = dead_grid (numRows c) (numCols c) ∧
    (numRows c < 2 ^ 32 → numCols c < 2 ^ 32 →
       generateEmptyGrid (numRows c) (numCols c) = Ok g0) ∧
    (∀ i j, live g0 i j = false) ∧
    App.step c g0 = Ok g1 ∧
    well_formed (numRows c) (numCols c) g1 = true ∧
    ∀ i j, 0 ≤ i < numRows c → 0 ≤ j < numCols c →
           live_neighbours g0 i j = 0 ∧ cell_at g1 i j = Some Alive.
Proof.
  intros Hr Hc Hb. eexists _.
  pose proof (empty_well_formed (numRows c) (numCols c)
                ltac:(lia) ltac:(lia)) as Hwf.
  destruct (step_well_formed c _ Hwf) as (g1 & Hs & Hwf1 & Hcell).
  exists g1. split_and!; try done.
  - intros Hr' Hc'. by rewrite generateEmptyGrid_Ok by lia.
  - intros i j. apply empty_live.
  - intros i j Hi Hj. split; [apply empty_live_neighbours|].
    destruct (well_formed_cell _ _ _ i j Hwf Hi Hj) as (row & v & Hrow & _ & Hv & _).
    assert (Hg : cell_at (dead_grid (numRows c) (numCols c)) i j = Some v).
    { unfold cell_at. by rewrite Hrow. }
    pose proof (empty_cell _ _ _ _ _ Hg) as ->.
    rewrite (Hcell _ _ _ Hg), empty_live_neighbours, <- Hb.
    unfold next_state, Alive, Dead. repeat case_bool_decide; try done.
    + lia.
    + tauto.
Qed.

Lemma birth_zero_fills_grid_witness :
  let c := mkConfig 4 6 2 3 0 interval in
  0 < numRows c ∧ 0 < numCols c ∧ birthNum c = 0 ∧
  ∃ g0 g1, generateEmptyGrid 4 6 = Ok g0 ∧ App.step c g0 = Ok g1 ∧
           cell_at g1 0 0 = Some Alive ∧ cell_at g1 3 5 = Some Alive.
Proof.
  intros c.
  assert (H1 : 0 < numRows c) by (simpl; lia).
  assert (H2 : 0 < numCols c) by (simpl; lia).
  assert (H3 : birthNum c = 0) by reflexivity.
  split; [exact H1|]. split; [exact H2|]. split; [exact H3|].
  destruct (birth_zero_fills_grid c H1 H2 H3)
    as (g0 & g1 & _ & E0 & _ & E1 & _ & H).
  exists g0, g1. split; [apply E0; simpl; lia|]. split; [exact E1|].
  split; apply H; simpl; lia.
Defined.

(** C6, as stated, fails: a length of 2^32 is positive, and there
    [generateEmptyGrid] throws a [RangeError]; [handleResize] has by then
    stored the dimensions and leaves the grid as it was, here with 30
    rows where 1 was asked for.  (And a number of rows that is not an
    integer is rounded down.) *)
Lemma resize_beyond_array_length :
  generateEmptyGrid 1 4294967296 = Throw RangeError ∧
  (∃ s', handleResize 1 4294967296 initial = Raised RangeError s' ∧
         numRows (cfg s') = 1 ∧ numCols (cfg s') = 4294967296 ∧
         grid s' = grid initial ∧ length (grid s') = 30%nat) ∧
  generateEmptyGrid (5 # 2) 3 = Ok (dead_grid 2 3).
Proof.
  split; [reflexivity|]. split; [|reflexivity].
  eexists. split; [reflexivity|]. repeat split.
Qed.

(** C6, amended.  A step returns a grid with as many rows as its input,
    each row as long as before, whenever the rows that the closure counts
    on exist (as they do in a well-formed grid); and for integers [rows]
    and [cols] that are positive and below 2^32, [generateEmptyGrid] and
    [handleResize] give a grid of exactly [rows] rows of exactly [cols]
    cells, all of them dead. *)
Theorem dimensions_preserved (c : config) (g : grid_t) (rows cols : Z) (s : state) :
  (rows_exist (numRows c) g = true →
     ∃ g', App.step c g = Ok g' ∧ length g' = length g ∧ shape g' = shape g) ∧
  (well_formed (numRows c) (numCols c) g = true →
     rows_exist (numRows c) g = true) ∧
  (0 < rows < 2 ^ 32 → 0 < cols < 2 ^ 32 →
     ∃ g0 s',
       generateEmptyGrid rows cols = Ok g0 ∧
       handleResize rows cols s = Returned s' ∧ grid s' = g0 ∧
       numRows (cfg s') = rows ∧ numCols (cfg s') = cols ∧
       well_formed rows cols g0 = true ∧
       shape g0 = replicate (Z.to_nat rows) (Some (Z.to_nat cols)) ∧
       ∀ i j, 0 ≤ i < rows → 0 ≤ j < cols → cell_at g0 i j = Some Dead).
Proof.
  split_and!.
  - intros Hre. destruct (step_total c g Hre) as [g' Hg']. exists g'.
    rewrite step_versions. split; [done|].
    pose proof (step_shape _ _ _ Hg') as Hsh. split; [|done].
    apply (f_equal length) in Hsh. unfold shape in Hsh.
    by rewrite !length_fmap in Hsh.
  - apply well_formed_rows_exist.
  - intros Hr Hc. eexists _, _. rewrite handleResize_Z. cbv zeta.
    rewrite generateEmptyGrid_Ok by lia.
    pose proof (empty_well_formed rows cols ltac:(lia) ltac:(lia)) as Hwf.
    split_and!; try done.
    + unfold shape. rewrite fmap_replicate. simpl. by rewrite length_replicate.
    + intros i j Hi Hj.
      destruct (well_formed_cell _ _ _ i j Hwf Hi Hj) as (row & v & Hrow & _ & Hv & _).
      assert (Hg : cell_at (dead_grid rows cols) i j = Some v).
      { unfold cell_at. by rewrite Hrow. }
      by rewrite Hg, (empty_cell _ _ _ _ _ Hg).
Qed.

Lemma dimensions_preserved_witness :
  rows_exist 3 small_blinker = true ∧
  (∃ g', App.step (classical 3 3) small_blinker = Ok g' ∧
         shape g' = shape small_blinker) ∧
  (∃ g0 s', generateEmptyGrid 7 9 = Ok g0 ∧
            handleResize 7 9 started = Returned s' ∧ grid s' = g0 ∧
            well_formed 7 9 g0 = true).
Proof.
  pose proof (dimensions_preserved (classical 3 3) small_blinker 7 9 started)
    as (Hstep & _ & Hnew).
  split; [reflexivity|]. split.
  - destruct (Hstep eq_refl) as (g' & E & _ & Hsh). exists g'.
    split; [exact E | exact Hsh].
  - destruct Hnew as (g0 & s' & E0 & E1 & G & _ & _ & W & _); [lia | lia |].
    exists g0, s'. split; [exact E0|]. split; [exact E1|].
    split; [exact G | exact W].
Defined.

(** C7, as stated, fails: 2^32 columns are large enough for the offsets,
    and there [createGlider] throws the [RangeError] of
    [generateEmptyGrid] instead of producing a grid. *)
Lemma glider_beyond_array_length :
  5 ≤ numRows (classical 5 4294967296) ∧
  5 ≤ numCols (classical 5 4294967296) ∧
  Part000.createGlider (with_cfg (classical 5 4294967296) initial) =
  Throw RangeError.
Proof. split; [simpl; lia|]. split; [simpl; lia | reflexivity]. Qed.

(** C7, amended.  On a grid of at least five rows and five columns, and
    fewer than 2^32 of each, [createGlider] succeeds and gives a
    well-formed grid whose cell [(i, j)] is alive exactly when its offset
    from the centre [(⌊rows/2⌋, ⌊cols/2⌋)] is one of (0,+1), (+1,+2),
    (+2,0), (+2,+1), (+2,+2), every other cell being dead; the result does
    not depend on the grid that was there before. *)
Theorem glider_pattern (s : state) :
  5 ≤ numRows (cfg s) < 2 ^ 32 → 5 ≤ numCols (cfg s) < 2 ^ 32 →
  let rows := numRows (cfg s) in
  let cols := numCols (cfg s) in
  ∃ s',
    Part000.createGlider s = Ok s' ∧
    well_formed rows cols (grid s') = true ∧
    (∀ i j, 0 ≤ i < rows → 0 ≤ j < cols →
       cell_at (grid s') i j =
       Some (if bool_decide ((i - rows / 2, j - cols / 2) ∈
                             [(0, 1); (1, 2); (2, 0); (2, 1); (2, 2)])
             then Alive else Dead)) ∧
    (∀ i j, (i, j) ∈ glider_cells rows cols → 0 ≤ i < rows ∧ 0 ≤ j < cols) ∧
    NoDup (glider_cells rows cols) ∧
    ∀ g, grid_of (Part000.createGlider (with_grid g s)) = Ok (grid s').
Proof.
  intros Hr Hc rows cols. eexists. split; [by apply createGlider_spec|].
  cbn [grid render with_grid with_runningRef]. fold rows cols.
  split_and!.
  - apply pattern_grid_well_formed; lia.
  - intros i j Hi Hj. rewrite pattern_grid_cell by done. f_equal.
    apply (f_equal (λ b : bool, if b then Alive else Dead)).
    apply bool_decide_ext. unfold glider_cells.
    rewrite !elem_of_cons, !elem_of_nil, !pair_equal_spec. lia.
  - intros i j. unfold glider_cells.
    rewrite !elem_of_cons, !elem_of_nil, !pair_equal_spec.
    assert (0 ≤ rows / 2 ∧ rows / 2 + 2 < rows) by (Z.div_mod_to_equations; lia).
    assert (0 ≤ cols / 2 ∧ cols / 2 + 2 < cols) by (Z.div_mod_to_equations; lia).
    lia.
  - unfold glider_cells. rewrite !NoDup_cons, !elem_of_cons, !elem_of_nil,
      !pair_equal_spec. split_and!; try lia. apply NoDup_nil_2.
  - intros g. by rewrite createGlider_spec.
Qed.

Lemma glider_pattern_witness :
  5 ≤ numRows (cfg initial) < 2 ^ 32 ∧ 5 ≤ numCols (cfg initial) < 2 ^ 32 ∧
  ∃ s', Part000.createGlider initial = Ok s' ∧
        cell_at (grid s') 15 26 = Some Alive ∧
        cell_at (grid s') 15 25 = Some Dead.
Proof.
  assert (H1 : 5 ≤ numRows (cfg initial) < 2 ^ 32) by (simpl; lia).
  assert (H2 : 5 ≤ numCols (cfg initial) < 2 ^ 32) by (simpl; lia).
  split; [exact H1|]. split; [exact H2|].
  destruct (glider_pattern initial H1 H2) as (s' & E & _ & H & _).
  exists s'. split; [exact E|].
  split; rewrite H by (simpl; lia); reflexivity.
Defined.

(** C8.  [handleCellClick(i, j)] on a cell that exists and is alive or
    dead flips that cell, keeps every other cell (and the shape of the
    grid), and leaves the run state, the configuration and the pending
    ticks unchanged. *)
Theorem toggle_flips_one_cell (s : state) (i j v : Z) :
  cell_at (grid s) i j = Some v → v = Dead ∨ v = Alive →
  let s' := handleCellClick i j s in
  (v = Alive → cell_at (grid s') i j = Some Dead) ∧
  (v = Dead → cell_at (grid s') i j = Some Alive) ∧
  (∀ i' j', (i', j') ≠ (i, j) →
            cell_at (grid s') i' j' = cell_at (grid s) i' j') ∧
  shape (grid s') = shape (grid s) ∧
  running s' = running s ∧ cfg s' = cfg s ∧ timers s' = timers s.
Proof.
  intros Hv Hb s'. subst s'. split_and!; try done.
  - intros ->. rewrite handleCellClick_cell, Hv. simpl.
    by rewrite !Z.eqb_refl.
  - intros ->. rewrite handleCellClick_cell, Hv. simpl.
    by rewrite !Z.eqb_refl.
  - intros i' j' Hne. rewrite handleCellClick_cell.
    destruct (cell_at (grid s) i' j') as [w|]; [|done]. simpl.
    destruct (Z.eqb_spec i' i), (Z.eqb_spec j' j); try done. congruence.
  - unfold handleCellClick, shape. cbn [grid render with_grid with_runningRef].
    apply list_eq. intros n. rewrite !list_lookup_fmap, array_map_lookup.
    destruct (grid s !! n) as [[row|]|]; try done. simpl.
    unfold array_map. by rewrite length_imap.
Qed.

Lemma toggle_flips_one_cell_witness :
  cell_at (grid started) 3 4 = Some 0 ∧ (0 = Dead ∨ 0 = Alive) ∧
  cell_at (grid (handleCellClick 3 4 started)) 3 4 = Some Alive ∧
  running (handleCellClick 3 4 started) = running started.
Proof.
  assert (H1 : cell_at (grid started) 3 4 = Some 0) by reflexivity.
  assert (H2 : 0 = Dead ∨ 0 = Alive) by (left; reflexivity).
  split; [exact H1|]. split; [exact H2|].
  destruct (toggle_flips_one_cell started 3 4 0 H1 H2)
    as (_ & Hflip & _ & _ & Hrun & _).
  split; [apply Hflip; reflexivity | exact Hrun].
Defined.

(** C9, as stated, fails: the setters store a value outside [0, 8] as it
    is, which is neither the clamped value nor the prior one. *)
Lemma setter_stores_out_of_range :
  surviveMin (cfg initial) = 2 ∧
  surviveMin (cfg (setSurviveMin 9 initial)) = 9 ∧
  surviveMax (cfg (setSurviveMax (-1) initial)) = -1 ∧
  birthNum (cfg (setBirthNum 100 initial)) = 100 ∧
  ¬ (0 ≤ surviveMin (cfg (setSurviveMin 9 initial)) ≤ 8).
Proof. repeat split. simpl. lia. Qed.

(** C9, amended.  Each rule-parameter setter stores the number it is
    given, for every integer, and changes nothing else: the other two
    parameters, the dimensions, the grid, the run state and the pending
    ticks are as before.  So the stored parameter is within [0, 8]
    exactly when the given number is. *)
Theorem setter_stores_input (n : Z) (s : state) :
  let keeps (s' : state) :=
    numRows (cfg s') = numRows (cfg s) ∧ numCols (cfg s') = numCols (cfg s) ∧
    simulationSpeed (cfg s') = simulationSpeed (cfg s) ∧
    grid s' = grid s ∧ running s' = running s ∧ timers s' = timers s in
  (surviveMin (cfg (setSurviveMin n s)) = n ∧
   surviveMax (cfg (setSurviveMin n s)) = surviveMax (cfg s) ∧
   birthNum (cfg (setSurviveMin n s)) = birthNum (cfg s) ∧
   keeps (setSurviveMin n s)) ∧
  (surviveMax (cfg (setSurviveMax n s)) = n ∧
   surviveMin (cfg (setSurviveMax n s)) = surviveMin (cfg s) ∧
   birthNum (cfg (setSurviveMax n s)) = birthNum (cfg s) ∧
   keeps (setSurviveMax n s)) ∧
  (birthNum (cfg (setBirthNum n s)) = n ∧
   surviveMin (cfg (setBirthNum n s)) = surviveMin (cfg s) ∧
   surviveMax (cfg (setBirthNum n s)) = surviveMax (cfg s) ∧
   keeps (setBirthNum n s)) ∧
  ((0 ≤ surviveMin (cfg (setSurviveMin n s)) ≤ 8) ↔ 0 ≤ n ≤ 8) ∧
  ((0 ≤ surviveMax (cfg (setSurviveMax n s)) ≤ 8) ↔ 0 ≤ n ≤ 8) ∧
  ((0 ≤ birthNum (cfg (setBirthNum n s)) ≤ 8) ↔ 0 ≤ n ≤ 8).
Proof. cbn. by split_and!. Qed.

(** C10.  The two versions of [runSimulation] transform the grid alike:
    for the same captured values and the same state, the updater gives
    the same grid (or fails alike), and the callback leaves the same
    grid, run state and configuration; the versions differ only in the
    delay of the tick they schedule, [interval] in [App.jsx] and
    [simulationSpeed] in [part_000]. *)
Theorem versions_agree (c : config) (s : state) :
  App.step c (grid s) = Part000.step c (grid s) ∧
  grid_of (App.runSimulation c s) = grid_of (Part000.runSimulation c s) ∧
  (∀ sa sp, App.runSimulation c s = Ok sa → Part000.runSimulation c s = Ok sp →
     grid sa = grid sp ∧ running sa = running sp ∧
     runningRef sa = runningRef sp ∧ cfg sa = cfg sp ∧
     (timers sa).*2 = (timers sp).*2) ∧
  (simulationSpeed c = interval →
     App.runSimulation c s = Part000.runSimulation c s).
Proof.
  unfold grid_of, App.runSimulation, Part000.runSimulation.
  rewrite step_versions. split; [done|].
  destruct (runningRef s); cbn [negb]; [|by split_and!; [ |intros ?? [= <-] [= <-]| ]].
  destruct (Part000.step c (grid s)) as [g'|]; cbn [bind].
  - split_and!; [done| |by intros ->].
    intros sa sp [= <-] [= <-]. cbn. split_and!; try done.
    by rewrite !fmap_app.
  - split_and!; done.
Qed.

Lemma versions_agree_witness :
  simulationSpeed (cfg started) = interval ∧
  App.runSimulation (cfg started) started =
  Part000.runSimulation (cfg started) started.
Proof.
  split; [reflexivity|].
  apply (proj2 (proj2 (proj2 (versions_agree (cfg started) started)))).
  reflexivity.
Defined.

(** * Further properties of the code *)

(** ** Grid construction and clearing *)

Lemma generateEmptyGrid_cases (rows cols : Z) :
  (rows ≤ 0 ∧ generateEmptyGrid rows cols = Ok []) ∨
  (0 < rows ∧ (2 ^ 32 ≤ rows ∨ cols < 0 ∨ 2 ^ 32 ≤ cols) ∧
   generateEmptyGrid rows cols = Throw RangeError) ∨
  (0 < rows < 2 ^ 32 ∧ 0 ≤ cols < 2 ^ 32 ∧
   generateEmptyGrid rows cols = Ok (dead_grid rows cols)).
Proof.
  destruct (decide (rows ≤ 0)) as [Hr|Hr].
  { left. split; [done|]. unfold generateEmptyGrid. rewrite Qfloor_Z.
    by destruct (Z.leb_spec rows 0); [|lia]. }
  destruct (decide (0 < rows < 2 ^ 32 ∧ 0 ≤ cols < 2 ^ 32)) as [[H1 H2]|Hb].
  { right; right. split; [done|]. split; [done|]. by apply generateEmptyGrid_Ok. }
  right; left. split; [lia|]. split; [lia|].
  unfold generateEmptyGrid. rewrite is_integer_Z, !Qfloor_Z.
  destruct (Z.leb_spec rows 0); [lia|].
  destruct (Z.leb_spec (2 ^ 32) rows); [done|].
  destruct (Z.leb_spec 0 cols); [|done].
  destruct (Z.ltb_spec cols (2 ^ 32)); [lia|done].
Qed.

Lemma generateEmptyGrid_Ok_inv (rows cols : Q) g :
  generateEmptyGrid rows cols = Ok g →
  well_formed (Z.max 0 (Qfloor rows)) (Qfloor cols) g = true ∧
  ∀ i j, live g i j = false.
Proof.
  unfold generateEmptyGrid. cbv zeta.
  destruct (Z.leb_spec (Qfloor rows) 0).
  { intros [= <-]. replace (Z.max 0 (Qfloor rows)) with 0 by lia.
    split; [reflexivity|].
    intros i j. unfold live, cell_at, array_get. by destruct (i <? 0). }
  destruct (Z.leb_spec (2 ^ 32) (Qfloor rows)); [done|].
  destruct (is_integer cols); [|done].
  destruct (Z.leb_spec 0 (Qfloor cols)); [|done].
  destruct (Z.ltb_spec (Qfloor cols) (2 ^ 32)); [|done].
  intros [= <-]. replace (Z.max 0 (Qfloor rows)) with (Qfloor rows) by lia.
  split; [apply empty_well_formed; lia | apply empty_live].
Qed.

(** X1.  [generateEmptyGrid] throws exactly when the number of rows,
    rounded down, is positive and either it is 2^32 or more or [cols] is
    not an integer from 0 to 2^32 - 1; the exception is a [RangeError].
    In every other case it returns a well-formed grid without a live
    cell, of as many rows as [rows] rounded down (none when that is not
    positive).  [handleResize] with integers stores both dimensions
    whether or not [generateEmptyGrid] throws: when it returns, the grid
    is installed and the run stopped; when it throws, grid and run state
    stay as they were.  Rule parameters and pending ticks are kept. *)
Theorem empty_grid_outcome (rows cols : Q) (rz cz : Z) (s : state) :
  (generateEmptyGrid rows cols = Throw RangeError ↔
     0 < Qfloor rows ∧
     (2 ^ 32 ≤ Qfloor rows ∨ is_integer cols = false ∨
      Qfloor cols < 0 ∨ 2 ^ 32 ≤ Qfloor cols)) ∧
  (∀ e, generateEmptyGrid rows cols = Throw e → e = RangeError) ∧
  (∀ g, generateEmptyGrid rows cols = Ok g →
        length g = Z.to_nat (Qfloor rows) ∧
        well_formed (Z.max 0 (Qfloor rows)) (Qfloor cols) g = true ∧
        ∀ i j, live g i j = false) ∧
  (∀ s', handleResize rz cz s = Returned s' →
         generateEmptyGrid rz cz = Ok (grid s') ∧
         running s' = false ∧ runningRef s' = false) ∧
  (∀ e s', handleResize rz cz s = Raised e s' →
           generateEmptyGrid rz cz = Throw e ∧
           grid s' = grid s ∧ running s' = running s) ∧
  (∀ s', (handleResize rz cz s = Returned s' ∨
          ∃ e, handleResize rz cz s = Raised e s') →
         numRows (cfg s') = rz ∧ numCols (cfg s') = cz ∧
         surviveMin (cfg s') = surviveMin (cfg s) ∧
         surviveMax (cfg s') = surviveMax (cfg s) ∧
         birthNum (cfg s') = birthNum (cfg s) ∧
         timers s' = timers s) ∧
  ((∃ s', handleResize rz cz s = Returned s') ∨
   (∃ s', handleResize rz cz s = Raised RangeError s')).
Proof.
  split_and!.
  - unfold generateEmptyGrid. cbv zeta.
    destruct (Z.leb_spec (Qfloor rows) 0); [split; [done|lia]|].
    destruct (Z.leb_spec (2 ^ 32) (Qfloor rows)); [split; [lia|done]|].
    destruct (is_integer cols); [|split; [intros _; split; [lia|auto] | done]].
    destruct (Z.leb_spec 0 (Qfloor cols)); [|split; [lia|done]].
    destruct (Z.ltb_spec (Qfloor cols) (2 ^ 32)); [|split; [lia|done]].
    cbn [andb]. split; [done|]. intros [_ [? | [? | [? | ?]]]]; (done || lia).
  - unfold generateEmptyGrid. cbv zeta. intros e.
    repeat case_match; by intros [= <-].
  - intros g Hg. split; [|by apply generateEmptyGrid_Ok_inv].
    revert Hg. unfold generateEmptyGrid. cbv zeta.
    destruct (Z.leb_spec (Qfloor rows) 0).
    { intros [= <-]. simpl. lia. }
    repeat case_match; try done. intros [= <-]. by rewrite length_replicate.
  - intros s'. rewrite handleResize_Z. cbv zeta.
    destruct (generateEmptyGrid rz cz); [|done]. by intros [= <-].
  - intros e s'. rewrite handleResize_Z. cbv zeta.
    destruct (generateEmptyGrid rz cz); [done|]. by intros [= <- <-].
  - intros s'. rewrite handleResize_Z. cbv zeta.
    destruct (generateEmptyGrid rz cz); intros [H | [e' H]]; try done;
      simplify_eq; done.
  - rewrite handleResize_Z. cbv zeta.
    destruct (generateEmptyGrid_cases rz cz)
      as [[_ ->] | [(_ & _ & ->) | (_ & _ & ->)]]; eauto.
Qed.

Lemma empty_grid_outcome_witness :
  generateEmptyGrid 2 (-3) = Throw RangeError ∧
  generateEmptyGrid 1 4294967296 = Throw RangeError ∧
  generateEmptyGrid 2 (5 # 2) = Throw RangeError ∧
  (∃ g, generateEmptyGrid (5 # 2) 3 = Ok g ∧ length g = 2%nat) ∧
  (∃ s', handleResize 5 6 started = Returned s' ∧ running s' = false) ∧
  (∃ s', handleResize 5 (-1) started = Raised RangeError s' ∧
         numCols (cfg s') = -1 ∧ grid s' = grid started).
Proof.
  pose proof (empty_grid_outcome 2 (-3) 5 6 started) as (H1 & _ & _ & H5 & _).
  pose proof (empty_grid_outcome 1 4294967296 5 (-1) started)
    as (H2 & _ & _ & _ & H6 & H7 & _).
  pose proof (empty_grid_outcome 2 (5 # 2) 0 0 started) as (H3 & _).
  pose proof (empty_grid_outcome (5 # 2) 3 0 0 started) as (_ & _ & H4 & _).
  split; [apply H1; vm_compute; split; [reflexivity | right; right; left; reflexivity]|].
  split; [apply H2; vm_compute; split; [reflexivity | right; right; right; discriminate]|].
  split; [apply H3; vm_compute; split; [reflexivity | right; left; reflexivity]|].
  split; [eexists; split; [reflexivity|]; apply (H4 _ eq_refl)|].
  split.
  - eexists. split; [reflexivity|]. apply (H5 _ eq_refl).
  - eexists. split; [reflexivity|]. split.
    + apply (H7 _ (or_intror (ex_intro _ RangeError eq_refl))).
    + apply (H6 _ _ eq_refl).
Defined.

(** X2.  [handleClear], when it returns, leaves an all-dead grid and a
    stopped run, and keeps configuration and pending ticks; clearing a
    second time changes nothing. *)
Theorem clear_idempotent (s s1 : state) :
  handleClear s = Ok s1 →
  handleClear s1 = Ok s1 ∧
  running s1 = false ∧ runningRef s1 = false ∧
  (∀ i j, live (grid s1) i j = false) ∧
  well_formed (Z.max 0 (numRows (cfg s))) (numCols (cfg s)) (grid s1) = true ∧
  cfg s1 = cfg s ∧ timers s1 = timers s.
Proof.
  unfold handleClear. intros H.
  destruct (generateEmptyGrid (numRows (cfg s)) (numCols (cfg s))) as [g|] eqn:Hg;
    [|discriminate H].
  cbn [bind] in H. injection H as <-.
  cbn [cfg grid running runningRef timers render with_running with_grid
       with_runningRef]. rewrite Hg. cbn [bind].
  destruct (generateEmptyGrid_Ok_inv _ _ g Hg) as [Hw Hl].
  rewrite !Qfloor_Z in Hw. by split_and!.
Qed.

Lemma clear_idempotent_witness :
  ∃ s1, handleClear started = Ok s1 ∧ handleClear s1 = Ok s1 ∧
        running s1 = false.
Proof.
  eexists. split; [reflexivity|].
  destruct (clear_idempotent started _ eq_refl) as (H1 & H2 & _).
  split; [exact H1 | exact H2].
Defined.

(** ** The seeders on grids that are too small *)

Lemma array_get_replicate {A} (n : nat) (x : A) i :
  0 ≤ i < Z.of_nat n → array_get (replicate n (Some x)) i = Some x.
Proof.
  intros Hi. apply array_get_Some. split; [lia|].
  apply lookup_replicate. split; [done|lia].
Qed.

Lemma array_get_nil {A} i : array_get (@nil (option A)) i = None.
Proof. unfold array_get. by destruct (i <? 0). Qed.

Lemma array_get_insert {A} (g : array A) (r i : Z) (x : A) :
  0 ≤ r < Z.of_nat (length g) →
  array_get (<[Z.to_nat r := Some x]> g) i =
  if bool_decide (i = r) then Some x else array_get g i.
Proof.
  intros Hr. unfold array_get. case_bool_decide as Hi.
  - subst i. destruct (Z.ltb_spec r 0); [lia|].
    by rewrite list_lookup_insert_eq by lia.
  - destruct (Z.ltb_spec i 0); [done|].
    by rewrite list_lookup_insert_ne by lia.
Qed.

Lemma length_array_set {A} (a : array A) i v :
  0 ≤ i → length (array_set a i v) = (length a `max` (Z.to_nat i + 1))%nat.
Proof.
  intros Hi. unfold array_set. destruct (Z.ltb_spec i 0); [lia|].
  destruct (Z.ltb_spec i (Z.of_nat (length a))).
  - rewrite length_insert. lia.
  - rewrite !length_app, length_replicate. simpl. lia.
Qed.

(** One [newGrid[r][c] = 1] where row [r] is known. *)
Ltac write_row :=
  match goal with
  | |- context [grid_set ?g ?r ?c ?v] =>
      unfold grid_set at 1;
      repeat (rewrite array_get_insert by (rewrite ?length_insert, ?length_replicate; lia);
              rewrite bool_decide_eq_false_2 by lia);
      first [ rewrite array_get_replicate by lia
            | rewrite array_get_insert by (rewrite ?length_insert, ?length_replicate; lia);
              rewrite bool_decide_eq_true_2 by lia ];
      cbn [bind]
  end.

Lemma createGlider_small s :
  numRows (cfg s) < 5 →
  Part000.createGlider s =
  Throw (if (0 <? numRows (cfg s)) &&
            ((numCols (cfg s) <? 0) || (2 ^ 32 <=? numCols (cfg s)))
         then RangeError else TypeError).
Proof.
  intros Hr. unfold Part000.createGlider.
  remember (numRows (cfg s)) as rows. remember (numCols (cfg s)) as cols.
  destruct (generateEmptyGrid_cases rows cols)
    as [[Hr0 ->] | [(Hr0 & Hc & ->) | (Hr0 & Hc & ->)]]; cbn [bind].
  - destruct (Z.ltb_spec 0 rows); [lia|]. unfold grid_set.
    by rewrite array_get_nil.
  - destruct (Z.ltb_spec 0 rows); [|lia].
    destruct (Z.ltb_spec cols 0); [done|].
    destruct (Z.leb_spec (2 ^ 32) cols); [done|lia].
  - destruct (Z.ltb_spec cols 0); [lia|].
    destruct (Z.leb_spec (2 ^ 32) cols); [lia|]. rewrite andb_false_r.
    assert (rows = 1 ∨ rows = 2 ∨ rows = 3 ∨ rows = 4) as [-> | [-> | [-> | ->]]]
      by lia; reflexivity.
Qed.

Lemma seeder_RangeError rows cols :
  0 < rows → 2 ^ 32 ≤ rows ∨ cols < 0 ∨ 2 ^ 32 ≤ cols →
  generateEmptyGrid rows cols = Throw RangeError.
Proof.
  intros Hr Hb.
  destruct (generateEmptyGrid_cases rows cols)
    as [[Hr0 _] | [(_ & _ & ->) | (? & ? & _)]]; [lia | done | lia].
Qed.

Lemma createGlider_narrow s :
  5 ≤ numRows (cfg s) < 2 ^ 32 → 0 ≤ numCols (cfg s) < 5 →
  ∃ s' row,
    Part000.createGlider s = Ok s' ∧
    array_get (grid s') (numRows (cfg s) / 2 + 1) = Some row ∧
    Z.of_nat (length row) = numCols (cfg s) / 2 + 3.
Proof.
  intros Hr Hc. unfold Part000.createGlider.
  set (rows := numRows (cfg s)) in *. set (cols := numCols (cfg s)) in *.
  rewrite generateEmptyGrid_Ok by lia. cbn [bind].
  assert (0 ≤ rows / 2 ∧ rows / 2 + 2 < rows) by (Z.div_mod_to_equations; lia).
  assert (0 ≤ cols / 2 ∧ cols ≤ cols / 2 + 2) by (Z.div_mod_to_equations; lia).
  do 5 write_row.
  eexists _, _. split; [done|].
  cbn [grid render with_grid with_runningRef].
  repeat (rewrite array_get_insert by (rewrite ?length_insert, ?length_replicate; lia);
          rewrite ?bool_decide_eq_false_2 by lia).
  rewrite bool_decide_eq_true_2 by lia. split; [done|].
  rewrite length_array_set, length_replicate by lia. lia.
Qed.

Lemma createOscillator_small s :
  numRows (cfg s) < 3 →
  Part000.createOscillator s =
  Throw (if (0 <? numRows (cfg s)) &&
            ((numCols (cfg s) <? 0) || (2 ^ 32 <=? numCols (cfg s)))
         then RangeError else TypeError).
Proof.
  intros Hr. unfold Part000.createOscillator.
  remember (numRows (cfg s)) as rows. remember (numCols (cfg s)) as cols.
  destruct (generateEmptyGrid_cases rows cols)
    as [[Hr0 ->] | [(Hr0 & Hc & ->) | (Hr0 & Hc & ->)]]; cbn [bind].
  - destruct (Z.ltb_spec 0 rows); [lia|]. unfold grid_set.
    by rewrite array_get_nil.
  - destruct (Z.ltb_spec 0 rows); [|lia].
    destruct (Z.ltb_spec cols 0); [done|].
    destruct (Z.leb_spec (2 ^ 32) cols); [done|lia].
  - destruct (Z.ltb_spec cols 0); [lia|].
    destruct (Z.leb_spec (2 ^ 32) cols); [lia|]. rewrite andb_false_r.
    assert (rows = 1 ∨ rows = 2) as [-> | ->] by lia; reflexivity.
Qed.

Lemma createOscillator_no_column s :
  3 ≤ numRows (cfg s) < 2 ^ 32 → numCols (cfg s) = 0 →
  ∃ s', Part000.createOscillator s = Ok s' ∧
        array_get (grid s') (numRows (cfg s) / 2) = Some [Some Alive].
Proof.
  intros Hr Hc. unfold Part000.createOscillator.
  set (rows := numRows (cfg s)) in *. rewrite Hc.
  rewrite generateEmptyGrid_Ok by lia. cbn [bind].
  assert (1 ≤ rows / 2 ∧ rows / 2 + 1 < rows) by (Z.div_mod_to_equations; lia).
  do 3 write_row.
  eexists. split; [done|].
  cbn [grid render with_grid with_runningRef].
  repeat (rewrite array_get_insert by (rewrite ?length_insert, ?length_replicate; lia);
          rewrite ?bool_decide_eq_false_2 by lia).
  by rewrite bool_decide_eq_true_2 by lia.
Qed.

Lemma well_formed_row rows cols g i row :
  well_formed rows cols g = true → array_get g i = Some row →
  Z.of_nat (length row) = cols.
Proof.
  intros [_ H]%well_formed_spec [_ Hr]%array_get_Some.
  by destruct (H _ _ Hr) as (row' & [= <-] & Hl & _).
Qed.

(** X3.  [createGlider] gives a well-formed grid exactly when the grid has
    at least five rows and five columns and fewer than 2^32 of each.
    With fewer than five rows it throws (a [TypeError] from the write
    into a missing row, or the [RangeError] of [generateEmptyGrid]); with
    2^32 rows or columns or more, or a negative number of columns, it
    throws that [RangeError]; with five rows or more but fewer than five
    columns it returns, and the write past the end of a row has made that
    row longer than [numCols]. *)
Theorem glider_fits_iff (s : state) :
  let rows := numRows (cfg s) in
  let cols := numCols (cfg s) in
  ((∃ s', Part000.createGlider s = Ok s' ∧
          well_formed rows cols (grid s') = true) ↔
     5 ≤ rows < 2 ^ 32 ∧ 5 ≤ cols < 2 ^ 32) ∧
  (rows < 5 →
     Part000.createGlider s =
     Throw (if (0 <? rows) && ((cols <? 0) || (2 ^ 32 <=? cols))
            then RangeError else TypeError)) ∧
  (5 ≤ rows → 2 ^ 32 ≤ rows ∨ cols < 0 ∨ 2 ^ 32 ≤ cols →
     Part000.createGlider s = Throw RangeError) ∧
  (5 ≤ rows < 2 ^ 32 → 0 ≤ cols < 5 →
     ∃ s' row, Part000.createGlider s = Ok s' ∧
               array_get (grid s') (rows / 2 + 1) = Some row ∧
               Z.of_nat (length row) = cols / 2 + 3 ∧ cols < cols / 2 + 3).
Proof.
  intros rows cols.
  assert (Hneg : 5 ≤ rows → 2 ^ 32 ≤ rows ∨ cols < 0 ∨ 2 ^ 32 ≤ cols →
                 Part000.createGlider s = Throw RangeError).
  { intros Hr Hc. unfold Part000.createGlider. fold rows cols.
    by rewrite seeder_RangeError by lia. }
  assert (Hnarrow : 5 ≤ rows < 2 ^ 32 → 0 ≤ cols < 5 →
     ∃ s' row, Part000.createGlider s = Ok s' ∧
               array_get (grid s') (rows / 2 + 1) = Some row ∧
               Z.of_nat (length row) = cols / 2 + 3 ∧ cols < cols / 2 + 3).
  { intros Hr Hc. destruct (createGlider_narrow s Hr Hc) as (s' & row & E & Hrow & Hl).
    exists s', row. split; [done|]. split; [done|]. split; [done|].
    Z.div_mod_to_equations; lia. }
  split; [|split; [apply createGlider_small | split; done]].
  split.
  - intros (s' & E & Hwf).
    destruct (decide (rows < 5)) as [Hr|Hr].
    { by rewrite createGlider_small in E. }
    destruct (decide (2 ^ 32 ≤ rows ∨ cols < 0 ∨ 2 ^ 32 ≤ cols)) as [Hc|Hc].
    { rewrite Hneg in E; [done | lia | done]. }
    destruct (decide (cols < 5)) as [Hc5|Hc5]; [|lia].
    destruct Hnarrow as (s'' & row & E' & Hrow & Hl & Hlt); [lia..|].
    rewrite E in E'. injection E' as <-.
    pose proof (well_formed_row _ _ _ _ _ Hwf Hrow). lia.
  - intros [Hr Hc]. eexists. split; [by apply createGlider_spec|].
    apply pattern_grid_well_formed; lia.
Qed.

Lemma glider_fits_iff_witness :
  (∃ s', Part000.createGlider initial = Ok s' ∧
         well_formed 30 50 (grid s') = true) ∧
  Part000.createGlider (with_cfg (classical 4 9) initial) = Throw TypeError ∧
  Part000.createGlider (with_cfg (classical 9 4294967296) initial) =
    Throw RangeError ∧
  ∃ s' row, Part000.createGlider (with_cfg (classical 6 4) initial) = Ok s' ∧
            array_get (grid s') 4 = Some row ∧ Z.of_nat (length row) = 5.
Proof.
  pose proof (glider_fits_iff initial) as (H1 & _).
  pose proof (glider_fits_iff (with_cfg (classical 4 9) initial)) as (_ & H2 & _).
  pose proof (glider_fits_iff (with_cfg (classical 9 4294967296) initial))
    as (_ & _ & H4 & _).
  pose proof (glider_fits_iff (with_cfg (classical 6 4) initial)) as (_ & _ & _ & H3).
  split; [|split; [|split]].
  - apply H1. simpl. lia.
  - apply H2. simpl. lia.
  - apply H4; simpl; lia.
  - destruct H3 as (s' & row & E & Hrow & Hl & _); [simpl; lia | simpl; lia |].
    exists s', row. split; [exact E|]. split; [exact Hrow | exact Hl].
Defined.

(** X4.  [createOscillator] gives a well-formed grid exactly when the grid
    has at least three rows and one column and fewer than 2^32 of each.
    With fewer than three rows it throws; with 2^32 rows or columns or
    more, or a negative number of columns, it throws the [RangeError] of
    [generateEmptyGrid]; with three rows or more and no column it returns
    with rows of one cell. *)
Theorem blinker_fits_iff (s : state) :
  let rows := numRows (cfg s) in
  let cols := numCols (cfg s) in
  ((∃ s', Part000.createOscillator s = Ok s' ∧
          well_formed rows cols (grid s') = true) ↔
     3 ≤ rows < 2 ^ 32 ∧ 1 ≤ cols < 2 ^ 32) ∧
  (rows < 3 →
     Part000.createOscillator s =
     Throw (if (0 <? rows) && ((cols <? 0) || (2 ^ 32 <=? cols))
            then RangeError else TypeError)) ∧
  (3 ≤ rows → 2 ^ 32 ≤ rows ∨ cols < 0 ∨ 2 ^ 32 ≤ cols →
     Part000.createOscillator s = Throw RangeError) ∧
  (3 ≤ rows < 2 ^ 32 → cols = 0 →
     ∃ s', Part000.createOscillator s = Ok s' ∧
           array_get (grid s') (rows / 2) = Some [Some Alive]).
Proof.
  intros rows cols.
  assert (Hneg : 3 ≤ rows → 2 ^ 32 ≤ rows ∨ cols < 0 ∨ 2 ^ 32 ≤ cols →
                 Part000.createOscillator s = Throw RangeError).
  { intros Hr Hc. unfold Part000.createOscillator. fold rows cols.
    by rewrite seeder_RangeError by lia. }
  split; [|split; [apply createOscillator_small
                  | split; [done | apply createOscillator_no_column]]].
  split.
  - intros (s' & E & Hwf).
    destruct (decide (rows < 3)) as [Hr|Hr].
    { by rewrite createOscillator_small in E. }
    destruct (decide (2 ^ 32 ≤ rows ∨ cols < 0 ∨ 2 ^ 32 ≤ cols)) as [Hc|Hc].
    { rewrite Hneg in E; [done | lia | done]. }
    destruct (decide (cols = 0)) as [Hc0|Hc0]; [|lia].
    destruct (createOscillator_no_column s) as (s'' & E' & Hrow);
      [fold rows; lia | done |].
    rewrite E in E'. injection E' as <-.
    pose proof (well_formed_row _ _ _ _ _ Hwf Hrow) as Hl. simpl in Hl.
    fold cols in Hl. lia.
  - intros [Hr Hc]. eexists. split; [by apply createOscillator_spec|].
    apply pattern_grid_well_formed; lia.
Qed.

Lemma blinker_fits_iff_witness :
  (∃ s', Part000.createOscillator initial = Ok s' ∧
         well_formed 30 50 (grid s') = true) ∧
  Part000.createOscillator (with_cfg (classical 2 9) initial) = Throw TypeError ∧
  Part000.createOscillator (with_cfg (classical 4294967296 9) initial) =
    Throw RangeError ∧
  ∃ s', Part000.createOscillator (with_cfg (classical 6 0) initial) = Ok s' ∧
        array_get (grid s') 3 = Some [Some Alive].
Proof.
  pose proof (blinker_fits_iff initial) as (H1 & _).
  pose proof (blinker_fits_iff (with_cfg (classical 2 9) initial)) as (_ & H2 & _).
  pose proof (blinker_fits_iff (with_cfg (classical 4294967296 9) initial))
    as (_ & _ & H4 & _).
  pose proof (blinker_fits_iff (with_cfg (classical 6 0) initial)) as (_ & _ & _ & H3).
  split; [|split; [|split]].
  - apply H1. simpl. lia.
  - apply H2. simpl. lia.
  - apply H4; simpl; lia.
  - apply H3; simpl; [lia | reflexivity].
Defined.

(** ** Ticks and their closures *)

Lemma fire_running k s d c :
  runningRef s = true → timers s !! k = Some (d, c) →
  Part000.fire k s =
  let* g' := Part000.step c (grid s) in
  Ok (mkState (cfg s) g' (running s) (running s)
              (delete k (timers s) ++ [(simulationSpeed c, c)])).
Proof.
  intros Href Hk. unfold Part000.fire, Part000.runSimulation. rewrite Hk.
  cbn [runningRef with_timers grid]. rewrite Href. cbn [negb].
  by destruct (Part000.step c (grid s)).
Qed.

(** X5.  A tick runs with the values its closure captured, not with the
    current ones: when a pending tick fires while running, the grid is
    stepped under the captured configuration, and the tick that is
    scheduled next carries the same closure again.  So an edit of a rule
    parameter or of the speed made while running changes neither the grid
    that the pending tick produces nor the closure of the ticks that
    follow it. *)
Theorem tick_keeps_its_closure (s : state) (k : nat) (d n : Z) (c : config) :
  rendered s → running s = true → timers s !! k = Some (d, c) →
  (∀ s', Part000.fire k s = Ok s' →
         Part000.step c (grid s) = Ok (grid s') ∧
         timers s' = delete k (timers s) ++ [(simulationSpeed c, c)] ∧
         cfg s' = cfg s ∧ running s' = true) ∧
  (∀ edit, edit ∈ [setSurviveMin n; setSurviveMax n; setBirthNum n;
                   setSimulationSpeed n] →
     grid_of (Part000.fire k (edit s)) = grid_of (Part000.fire k s) ∧
     (∀ s1 s2, Part000.fire k (edit s) = Ok s1 → Part000.fire k s = Ok s2 →
               timers s1 = timers s2)).
Proof.
  intros Hs Hrun Hk. unfold rendered in Hs. rewrite Hrun in Hs. split.
  - intros s'. rewrite (fire_running k s d c) by done. cbv zeta.
    destruct (Part000.step c (grid s)) as [g'|]; [|done]. cbn [bind].
    intros [= <-]. by split_and!.
  - intros edit Hedit.
    assert (runningRef (edit s) = true ∧ timers (edit s) = timers s ∧
            grid (edit s) = grid s) as (Href & Ht & Hg).
    { rewrite !elem_of_cons, elem_of_nil in Hedit.
      destruct Hedit as [-> | [-> | [-> | [-> | []]]]]; by split_and!. }
    rewrite (fire_running k (edit s) d c), (fire_running k s d c);
      [|done|done|done|by rewrite Ht].
    cbv zeta. rewrite Hg, Ht.
    destruct (Part000.step c (grid s)) as [g'|]; cbn [bind grid_of grid]; [|done].
    split; [done|]. by intros s1 s2 [= <-] [= <-].
Qed.

Lemma tick_keeps_its_closure_witness :
  rendered started ∧ running started = true ∧
  timers started !! 0%nat = Some (interval, cfg initial) ∧
  grid_of (Part000.fire 0 (setBirthNum 0 started)) =
  grid_of (Part000.fire 0 started).
Proof.
  assert (H1 : rendered started) by reflexivity.
  assert (H2 : running started = true) by reflexivity.
  assert (H3 : timers started !! 0%nat = Some (interval, cfg initial))
    by reflexivity.
  split; [exact H1|]. split; [exact H2|]. split; [exact H3|].
  destruct (tick_keeps_its_closure started 0 interval 0 (cfg initial) H1 H2 H3)
    as [_ H].
  apply (H (setBirthNum 0)). apply elem_of_cons. right.
  apply elem_of_cons. right. apply elem_of_cons. left. reflexivity.
Defined.

Lemma createGlider_timers s s' :
  Part000.createGlider s = Ok s' → timers s' = timers s.
Proof.
  unfold Part000.createGlider. intros H. bind_cases H. by injection H as <-.
Qed.

Lemma createOscillator_timers s s' :
  Part000.createOscillator s = Ok s' → timers s' = timers s.
Proof.
  unfold Part000.createOscillator. intros H. bind_cases H. by injection H as <-.
Qed.

Lemma handler_timers s s' :
  (handleClear s = Ok s' ∨ Part000.createGlider s = Ok s' ∨
   Part000.createOscillator s = Ok s' ∨
   (∃ draws, handleRandom draws s = Ok s')) →
  timers s' = timers s.
Proof.
  intros [H | [H | [H | [draws H]]]].
  - unfold handleClear in H. bind_cases H. by injection H as <-.
  - by apply createGlider_timers.
  - by apply createOscillator_timers.
  - unfold handleRandom in H. cbv zeta in H.
    repeat case_match; try done; by injection H as <-.
Qed.

Lemma handleResize_timers rows cols s s' :
  (handleResize rows cols s = Returned s' ∨
   ∃ e, handleResize rows cols s = Raised e s') →
  timers s' = timers s.
Proof.
  unfold handleResize. cbv zeta.
  destruct (is_integer rows && is_integer cols); [|by intros [|[]]].
  destruct (generateEmptyGrid rows cols);
    intros [H | [ex H]]; try done; by simplify_eq.
Qed.

Lemma handle_timers e s s' :
  (∀ k, e ≠ Timer k) → e ≠ StartPause ∨ running s = true →
  (handle e s = Returned s' ∨ ∃ ex, handle e s = Raised ex s') →
  timers s' = timers s.
Proof.
  intros Hne Hcase H. destruct e; cbn [handle] in H;
    try (by destruct H as [[= <-] | [ex [=]]]);
    try (destruct H as [H%settle_Returned | [ex [_ ->]%settle_Raised]];
         [apply handler_timers; eauto 10 | done]).
  - destruct H as [H%mount_Returned | [ex H]]; [|by apply mount_Raised in H].
    destruct Hcase as [|Hrun]; [done|]. unfold Part000.toggleRun in H.
    rewrite Hrun in H. by injection H as <-.
  - by apply (handleResize_timers rows cols).
  - by destruct (Hne k).
Qed.

Lemma toggleRun_start s s' :
  running s = false → Part000.toggleRun s = Ok s' →
  timers s' = timers s ++ [(simulationSpeed (cfg s), cfg s)].
Proof.
  intros Hrun H. unfold Part000.toggleRun in H.
  rewrite Hrun in H. unfold Part000.runSimulation in H.
  cbn [runningRef with_runningRef negb grid] in H.
  destruct (Part000.step _ _) as [g'|]; cbn [bind] in H; [|done].
  by injection H as <-.
Qed.

Lemma fire_stopped k s d c :
  runningRef s = false → timers s !! k = Some (d, c) →
  Part000.fire k s = Ok (with_timers (delete k (timers s)) s).
Proof.
  intros Href Hk. unfold Part000.fire, Part000.runSimulation. rewrite Hk.
  cbn [runningRef with_timers]. by rewrite Href.
Qed.

(** X6.  Nothing cancels a pending tick.  Every handler other than a
    firing timer, whether it returns or throws, keeps the pending ticks in
    order, and only Start adds one, with the current speed and closure.  A
    tick that fires is removed from the pending ticks; while running, a
    tick carrying the closure it captured, delayed by the speed in that
    closure, is appended, and the grid is stepped under that closure;
    when stopped nothing is appended and the rest of the state is kept.
    In particular Pause keeps the pending tick, and Pause followed by Start
    leaves the old tick pending beside the new one. *)
Theorem pending_ticks_never_cancelled (e : event) (s s' : state) :
  (handle e s = Returned s' ∨ ∃ ex, handle e s = Raised ex s') →
  ((∀ k, e ≠ Timer k) →
     timers s `prefix_of` timers s' ∧
     (e ≠ StartPause ∨ running s = true → timers s' = timers s) ∧
     (e = StartPause → running s = false →
        timers s' = timers s ++ [(simulationSpeed (cfg s), cfg s)])) ∧
  (∀ k d c, e = Timer k → timers s !! k = Some (d, c) →
     if runningRef s
     then timers s' = delete k (timers s) ++ [(simulationSpeed c, c)] ∧
          Part000.step c (grid s) = Ok (grid s')
     else s' = with_timers (delete k (timers s)) s) ∧
  (e = StartPause → running s = true →
     ∀ s2, handle StartPause s' = Returned s2 →
           timers s2 = timers s ++ [(simulationSpeed (cfg s), cfg s)]).
Proof.
  intros H. split_and!.
  - intros Hne.
    assert (Hstart : e = StartPause → running s = false →
              timers s' = timers s ++ [(simulationSpeed (cfg s), cfg s)]).
    { intros -> Hrun. cbn [handle] in H.
      destruct H as [H%mount_Returned | [ex H]]; [|by apply mount_Raised in H].
      by apply toggleRun_start. }
    pose proof (handle_timers e s s' Hne) as Hsame.
    split_and!; [|auto|done].
    assert (e = StartPause ∨ e ≠ StartPause) as [->|He]
      by (destruct e; (by left) || (by right)).
    + destruct (running s) eqn:Hrun.
      * rewrite Hsame by auto. done.
      * rewrite Hstart by done. by apply prefix_app_r.
    + rewrite Hsame by auto. done.
  - intros k d c -> Hdc. cbn [handle] in H.
    destruct H as [H%mount_Returned | [ex H]]; [|by apply mount_Raised in H].
    destruct (runningRef s) eqn:Href.
    + rewrite (fire_running k s d c) in H by done. cbv zeta in H.
      destruct (Part000.step c (grid s)) as [g'|]; cbn [bind] in H; [|done].
      by injection H as <-.
    + rewrite (fire_stopped k s d c) in H by done. by injection H as <-.
  - intros -> Hrun s2. cbn [handle] in H |- *.
    destruct H as [H%mount_Returned | [ex H]]; [|by apply mount_Raised in H].
    unfold Part000.toggleRun in H. rewrite Hrun in H. injection H as <-.
    intros H%mount_Returned. by apply toggleRun_start in H.
Qed.

Lemma pending_ticks_never_cancelled_witness :
  ∃ s1 s2,
    handle StartPause started = Returned s1 ∧ timers s1 = timers started ∧
    handle StartPause s1 = Returned s2 ∧ length (timers s2) = 2%nat.
Proof.
  eexists (render (with_running false started)).
  destruct (Part000.toggleRun (render (with_running false started)))
    as [s2|] eqn:E2; [|vm_compute in E2; discriminate E2].
  exists s2.
  assert (H1 : handle StartPause started =
               Returned (render (with_running false started))) by reflexivity.
  assert (H2 : handle StartPause (render (with_running false started)) =
               Returned s2) by (cbn [handle]; rewrite E2; reflexivity).
  destruct (pending_ticks_never_cancelled StartPause started _ (or_introl H1))
    as (Ha & _ & Hc).
  split; [exact H1|]. split; [reflexivity|]. split; [exact H2|].
  rewrite (Hc eq_refl eq_refl s2 H2). reflexivity.
Defined.

(** ** What every reachable state satisfies *)

Lemma rule_values c v n v' : rule c v n = Ok v' → v' = 0 ∨ v' = 1 ∨ v' = v.
Proof. unfold rule. repeat case_match; intros [= <-]; auto. Qed.

Lemma step_filled c g g' :
  Part000.step c g = Ok g' → filled_binary g →
  filled_binary g' ∧ length g' = length g.
Proof.
  rewrite step_unfold. unfold array_mapM.
  intros [Hl H]%array_mapM_from_Ok Hg. split; [|done].
  intros n r' Hr'. specialize (H n). cbv beta in H.
  destruct (g !! n) as [r|] eqn:Hr; [|congruence].
  destruct (Hg _ _ Hr) as (row & -> & Hrow).
  destruct H as (row' & [Hl' H]%array_mapM_from_Ok & Hr2).
  rewrite Hr2 in Hr'. injection Hr' as <-. exists row'. split; [done|].
  intros m v' Hv'. specialize (H m). cbv beta in H.
  destruct (row !! m) as [[v|]|] eqn:Hv; [|congruence..].
  destruct H as (y & Hy & Hy'). rewrite Hy' in Hv'. injection Hv' as <-.
  destruct (count c g _ _) as [k|]; [|done]. cbn [bind] in Hy.
  destruct (rule_values _ _ _ _ Hy) as [-> | [-> | ->]]; [by left | by right |].
  eauto.
Qed.

Lemma array_set_filled (P : Z → Prop) (row : array Z) c v0 :
  (∀ m v, row !! m = Some (Some v) → P v) → P v0 →
  ∀ m v, array_set row c v0 !! m = Some (Some v) → P v.
Proof.
  intros Hrow H0 m v. unfold array_set.
  destruct (c <? 0); [apply Hrow|].
  destruct (c <? Z.of_nat (length row)).
  - intros [(_ & Heq & _) | [_ ?]]%list_lookup_insert_Some; [|eauto].
    injection Heq as Heq. by subst.
  - intros [? | [_ Hm]]%lookup_app_Some; [eauto|].
    apply lookup_app_Some in Hm as [[? _]%lookup_replicate | [_ Hm]]; [done|].
    apply list_lookup_singleton_Some in Hm as [_ [= <-]]. done.
Qed.

Lemma grid_set_filled g r c v g' :
  grid_set g r c v = Ok g' → v = Dead ∨ v = Alive → filled_binary g →
  filled_binary g' ∧ length g' = length g.
Proof.
  unfold grid_set. destruct (array_get g r) as [row|] eqn:Hr; [|done].
  intros [= <-] Hv Hg. split; [|by rewrite length_insert].
  apply array_get_Some in Hr as [_ Hr].
  intros n r' [(_ & <- & _) | [_ ?]]%list_lookup_insert_Some; [|eauto].
  eexists. split; [done|]. apply array_set_filled; [|done].
  destruct (Hg _ _ Hr) as (row' & [= <-] & H). done.
Qed.

Lemma generateEmptyGrid_filled (rows cols : Q) g :
  generateEmptyGrid rows cols = Ok g →
  filled_binary g ∧ length g = Z.to_nat (Qfloor rows).
Proof.
  unfold generateEmptyGrid. cbv zeta.
  destruct (Z.leb_spec (Qfloor rows) 0).
  { intros [= <-]. split; [by intros n r | simpl; lia]. }
  destruct (2 ^ 32 <=? Qfloor rows); [done|].
  destruct (_ && _ && _); [|done]. intros [= <-].
  split; [|by rewrite length_replicate].
  intros n r [-> _]%lookup_replicate. eexists. split; [done|].
  intros m v [[= ->] _]%lookup_replicate. by left.
Qed.

Lemma generateEmptyGrid_Throw (rows cols : Q) e :
  generateEmptyGrid rows cols = Throw e → e = RangeError.
Proof.
  unfold generateEmptyGrid. cbv zeta. repeat case_match; by intros [= <-].
Qed.

Lemma generateEmptyGrid_integer (rows cols : Q) :
  is_integer cols = true →
  generateEmptyGrid rows cols = generateEmptyGrid (Qfloor rows) (Qfloor cols).
Proof.
  intros H. unfold generateEmptyGrid. by rewrite !Qfloor_Z, is_integer_Z, H.
Qed.

Lemma createGlider_filled s s' :
  Part000.createGlider s = Ok s' →
  filled_binary (grid s') ∧ length (grid s') = Z.to_nat (numRows (cfg s')).
Proof.
  unfold Part000.createGlider. intros H.
  destruct (generateEmptyGrid _ _) as [g0|] eqn:E0; cbn [bind] in H; [|done].
  apply generateEmptyGrid_filled in E0 as [F0 L0]. rewrite Qfloor_Z in L0.
  repeat match type of H with
         | bind (grid_set ?g ?r ?c ?v) _ = _ =>
             let E := fresh "E" in
             destruct (grid_set g r c v) eqn:E; cbn [bind] in H; [|done];
             apply grid_set_filled in E as [? ?]; [|by right|done]
         end.
  injection H as <-. cbn. split; [done|congruence].
Qed.

Lemma createOscillator_filled s s' :
  Part000.createOscillator s = Ok s' →
  filled_binary (grid s') ∧ length (grid s') = Z.to_nat (numRows (cfg s')).
Proof.
  unfold Part000.createOscillator. intros H.
  destruct (generateEmptyGrid _ _) as [g0|] eqn:E0; cbn [bind] in H; [|done].
  apply generateEmptyGrid_filled in E0 as [F0 L0]. rewrite Qfloor_Z in L0.
  repeat match type of H with
         | bind (grid_set ?g ?r ?c ?v) _ = _ =>
             let E := fresh "E" in
             destruct (grid_set g r c v) eqn:E; cbn [bind] in H; [|done];
             apply grid_set_filled in E as [? ?]; [|by right|done]
         end.
  injection H as <-. cbn. split; [done|congruence].
Qed.

Lemma handleCellClick_filled i j s :
  filled_binary (grid s) →
  filled_binary (grid (handleCellClick i j s)) ∧
  length (grid (handleCellClick i j s)) = length (grid s).
Proof.
  intros Hg. unfold handleCellClick. cbn [grid render with_grid with_runningRef].
  split; [|unfold array_map; by rewrite length_imap].
  intros n r' Hr'. rewrite array_map_lookup in Hr'.
  destruct (grid s !! n) as [r|] eqn:Hr; [|done].
  destruct (Hg _ _ Hr) as (row & -> & Hrow). injection Hr' as <-.
  eexists. split; [done|]. intros m v' Hv'. rewrite array_map_lookup in Hv'.
  destruct (row !! m) as [[v|]|] eqn:Hv; [|done..].
  injection Hv' as <-. repeat case_match; eauto.
Qed.

Lemma handleRandom_filled draws s s' :
  handleRandom draws s = Ok s' →
  filled_binary (grid s') ∧ length (grid s') = Z.to_nat (numRows (cfg s')).
Proof.
  unfold handleRandom. cbv zeta.
  destruct (Z.leb_spec (numRows (cfg s)) 0).
  { intros [= <-]. split; [by intros n r | simpl; lia]. }
  destruct (2 ^ 32 <=? numRows (cfg s)); [done|].
  destruct (2 ^ 32 <=? numCols (cfg s)); [done|]. intros [= <-].
  cbn [grid render with_grid with_runningRef cfg].
  split; [|by rewrite length_fmap, length_seqZ].
  intros n r Hr. rewrite list_lookup_fmap in Hr.
  destruct (seqZ 0 (numRows (cfg s)) !! n) as [i|]; [|done]. injection Hr as <-.
  eexists. split; [done|]. intros m v Hv. rewrite list_lookup_fmap in Hv.
  destruct (seqZ 0 (numCols (cfg s)) !! m) as [j|]; [|done]. injection Hv as <-.
  destruct (negb _); auto.
Qed.

Lemma handleResize_filled rows cols s s' :
  filled_binary (grid s) →
  (handleResize rows cols s = Returned s' ∨
   ∃ e, handleResize rows cols s = Raised e s') →
  filled_binary (grid s') ∧
  (length (grid s') = Z.to_nat (numRows (cfg s')) ∨
   generateEmptyGrid (numRows (cfg s')) (numCols (cfg s')) = Throw RangeError).
Proof.
  intros Hf. unfold handleResize. cbv zeta.
  destruct (is_integer rows && is_integer cols) eqn:Hi; [|by intros [|[]]].
  apply andb_true_iff in Hi as [_ Hi].
  destruct (generateEmptyGrid rows cols) as [g|e0] eqn:E;
    intros [H | [ex H]]; try done; simplify_eq.
  - apply generateEmptyGrid_filled in E as [? ?]. split; [done|]. by left.
  - split; [done|]. right. cbn.
    rewrite <- generateEmptyGrid_integer by done.
    by rewrite (generateEmptyGrid_Throw _ _ _ E) in E.
Qed.

Lemma handle_grid_invariant e s s' :
  filled_binary (grid s) →
  length (grid s) = Z.to_nat (numRows (cfg s)) ∨
  generateEmptyGrid (numRows (cfg s)) (numCols (cfg s)) = Throw RangeError →
  (handle e s = Returned s' ∨ ∃ ex, handle e s = Raised ex s') →
  filled_binary (grid s') ∧
  (length (grid s') = Z.to_nat (numRows (cfg s')) ∨
   generateEmptyGrid (numRows (cfg s')) (numCols (cfg s')) = Throw RangeError).
Proof.
  intros Hf Hl H. destruct e; cbn [handle] in H;
    try (by destruct H as [[= <-] | [ex [=]]]);
    try (destruct H as [H%settle_Returned | [ex [_ ->]%settle_Raised]];
         [|done]).
  - destruct H as [H%mount_Returned | [ex H]]; [|by apply mount_Raised in H].
    unfold Part000.toggleRun in H. destruct (running s).
    { by injection H as <-. }
    unfold Part000.runSimulation in H.
    cbn [runningRef with_runningRef negb grid] in H.
    destruct (Part000.step _ _) as [g'|] eqn:Hs; cbn [bind] in H; [|done].
    injection H as <-. cbn. apply step_filled in Hs as [? Hs]; [|done].
    split; [done|]. by rewrite Hs.
  - unfold handleClear in H.
    destruct (generateEmptyGrid _ _) as [g|] eqn:E; cbn [bind] in H; [|done].
    injection H as <-. apply generateEmptyGrid_filled in E as [? E].
    rewrite Qfloor_Z in E. split; [done|]. by left.
  - apply handleRandom_filled in H as [? ?]. split; [done|]. by left.
  - apply createGlider_filled in H as [? ?]. split; [done|]. by left.
  - apply createOscillator_filled in H as [? ?]. split; [done|]. by left.
  - by apply (handleResize_filled rows cols s).
  - destruct H as [[= <-] | [ex [=]]].
    destruct (handleCellClick_filled i j s Hf) as [? Hl'].
    split; [done|]. by rewrite Hl'.
  - destruct H as [H%mount_Returned | [ex H]]; [|by apply mount_Raised in H].
    unfold Part000.fire in H. destruct (timers s !! k) as [[d c]|].
    2:{ by injection H as <-. }
    unfold Part000.runSimulation in H. cbn [runningRef with_timers grid] in H.
    destruct (runningRef s); cbn [negb bind] in H.
    + destruct (Part000.step _ _) as [g'|] eqn:Hs; cbn [bind] in H; [|done].
      injection H as <-. cbn. apply step_filled in Hs as [? Hs]; [|done].
      split; [done|]. by rewrite Hs.
    + by injection H as <-.
Qed.

(** X7.  The states that the component reaches from its initial state
    through handlers and timers, the resize handler being called with
    integers, after a handler that returned and after one that threw:
    in every such state the ref mirrors the [running] flag, no row of the
    grid is missing, every filled cell holds [0] or [1], and the grid has
    exactly [max(numRows, 0)] rows unless the stored dimensions are ones
    for which [generateEmptyGrid] throws a [RangeError] (a resize that
    threw has stored them and kept the old grid). *)
Theorem reachable_invariant (s : state) :
  reachable s →
  rendered s ∧
  filled_binary (grid s) ∧
  (length (grid s) = Z.to_nat (numRows (cfg s)) ∨
   generateEmptyGrid (numRows (cfg s)) (numCols (cfg s)) = Throw RangeError).
Proof.
  intros Hs. split; [by apply reachable_rendered|].
  induction Hs as [|e s s' _ [IHf IHl] H|e ex s s' _ [IHf IHl] H].
  - split; [|by left]. apply (generateEmptyGrid_filled 30 50). reflexivity.
  - apply (handle_grid_invariant e s s' IHf IHl). by left.
  - apply (handle_grid_invariant e s s' IHf IHl). right. by exists ex.
Qed.

Lemma reachable_invariant_witness :
  reachable started ∧ rendered started ∧ filled_binary (grid started).
Proof.
  assert (H : reachable started).
  { apply (reachable_returned StartPause initial started).
    - apply reachable_initial.
    - reflexivity. }
  split; [exact H|].
  destruct (reachable_invariant started H) as (H1 & H2 & _).
  split; [exact H1 | exact H2].
Defined.

(** ** When the step throws *)

Lemma array_mapM_from_Throw {A B} (f : A → Z → result B) a : ∀ k e,
  array_mapM_from f k a = Throw e →
  ∃ n x, a !! n = Some (Some x) ∧ f x (k + Z.of_nat n) = Throw e.
Proof.
  induction a as [|[x|] a IH]; intros k e H; simpl in H; [done| |].
  - destruct (f x k) as [y|e'] eqn:E; cbn [bind] in H.
    + destruct (array_mapM_from f (k + 1) a) as [bs|e'] eqn:E2;
        cbn [bind] in H; [done|]. injection H as ->.
      destruct (IH _ _ E2) as (n & x' & Hn & Hx). exists (S n), x'.
      split; [done|]. rewrite <- Hx. f_equal. lia.
    + injection H as ->. exists 0%nat, x. split; [done|].
      by rewrite Z.add_0_r.
  - destruct (array_mapM_from f (k + 1) a) as [bs|e'] eqn:E2;
      cbn [bind] in H; [done|]. injection H as ->.
    destruct (IH _ _ E2) as (n & x' & Hn & Hx). exists (S n), x'.
    split; [done|]. rewrite <- Hx. f_equal. lia.
Qed.

Lemma probe_outcome c g i j acc op :
  (∃ n, probe c g i j acc op = Ok n) ∨ probe c g i j acc op = Throw TypeError.
Proof.
  destruct op as [x y]. unfold probe. repeat case_match; eauto.
Qed.

Lemma forEach_probe_Throw c g i j l : ∀ acc e,
  forEach (probe c g i j) l acc = Throw e → e = TypeError.
Proof.
  induction l as [|op l IH]; intros acc e H; cbn [forEach] in H; [done|].
  destruct (probe_outcome c g i j acc op) as [[n Hn] | Hn]; rewrite Hn in H;
    cbn [bind] in H; [eauto | congruence].
Qed.

Lemma step_Throw c g e : Part000.step c g = Throw e → e = TypeError.
Proof.
  rewrite step_unfold. unfold array_mapM.
  intros (n & row & _ & H)%array_mapM_from_Throw.
  apply array_mapM_from_Throw in H as (m & v & _ & H).
  destruct (count c g _ _) as [k|e'] eqn:Hk; cbn [bind] in H.
  - by destruct (rule_total c v k) as [v' Hv']; rewrite Hv' in H.
  - injection H as ->. by eapply forEach_probe_Throw.
Qed.

Lemma forEach_probe_throws c g i j op l :
  op ∈ l → (∀ acc, probe c g i j acc op = Throw TypeError) →
  ∀ acc, forEach (probe c g i j) l acc = Throw TypeError.
Proof.
  intros Hin Hop. induction l as [|op' l IH]; intros acc; [by inversion Hin|].
  cbn [forEach]. destruct (probe_outcome c g i j acc op') as [[n Hn] | Hn];
    rewrite Hn; cbn [bind]; [|done].
  apply elem_of_cons in Hin as [<- | Hin]; [|by apply IH].
  by rewrite Hop in Hn.
Qed.


Lemma step_missing_rows c g rows cols :
  well_formed rows cols g = true → 0 < rows → 0 < cols →
  rows < numRows c → 0 < numCols c →
  Part000.step c g = Throw TypeError.
Proof.
  intros Hwf Hr Hc Hr' Hc'.
  assert (Hlast : count c g (rows - 1) 0 = Throw TypeError).
  { unfold count. apply (forEach_probe_throws c g (rows - 1) 0 (1, 0)).
    - unfold operations. rewrite !elem_of_cons. tauto.
    - intros acc. unfold probe.
      replace (rows - 1 + 1) with rows by lia.
      destruct (Z.geb_spec rows 0); [|lia].
      destruct (Z.ltb_spec rows (numRows c)); [|lia].
      destruct (Z.ltb_spec (0 + 0) (numCols c)); [|lia]. cbn.
      destruct (array_get g rows) as [row|] eqn:Hrow; [|done].
      apply array_get_Some in Hrow as [_ Hrow%lookup_lt_Some].
      apply well_formed_spec in Hwf as [Hl _]. lia. }
  destruct (Part000.step c g) as [g'|e] eqn:E.
  - destruct (well_formed_cell _ _ g (rows - 1) 0 Hwf)
      as (row & v & Hrow & _ & Hv & _); [lia..|].
    assert (Hcell : cell_at g (rows - 1) 0 = Some v).
    { unfold cell_at. by rewrite Hrow. }
    destruct (step_cell _ _ _ _ _ _ E Hcell) as (n & _ & Hn & _).
    by rewrite Hlast in Hn.
  - by rewrite (step_Throw _ _ _ E).
Qed.




(** X9.  A tick that is pending when the grid is resized to fewer rows
    keeps the old [numRows] in its closure.  Let a tick whose closure has
    [numRows] greater than [rows] and a positive [numCols] be pending, and
    let the grid be resized to [rows] by [cols], both positive integers
    below 2^32.  Resize returns and stops the run, so the tick would be
    discarded; but if Start is pressed before it fires (Start returns and
    the tick is still pending), the tick finds [runningRef] true again and
    queues a step of the new, smaller grid under the old dimensions: that
    grid update throws a [TypeError] when it is rendered, and the
    component is unmounted. *)
Theorem stale_tick_after_shrink_throws
  (s : state) (k : nat) (d rows cols : Z) (c : config) :
  timers s !! k = Some (d, c) →
  0 < rows < 2 ^ 32 → rows < numRows c → 0 < cols < 2 ^ 32 → 0 < numCols c →
  ∃ s1 s2,
    handle (Resize rows cols) s = Returned s1 ∧ running s1 = false ∧
    handle StartPause s1 = Returned s2 ∧ running s2 = true ∧
    timers s2 !! k = Some (d, c) ∧
    Part000.step c (grid s2) = Throw TypeError ∧
    handle (Timer k) s2 = Crashed TypeError.
Proof.
  intros Hk Hr Hr' Hc Hc'.
  pose proof (empty_well_formed rows cols ltac:(lia) ltac:(lia)) as Hwf.
  destruct (step_well_formed
              (mkConfig rows cols (surviveMin (cfg s)) (surviveMax (cfg s))
                        (birthNum (cfg s)) (simulationSpeed (cfg s))) _ Hwf)
    as (g1 & Hs1 & Hwf1 & _).
  cbn [numRows numCols] in Hwf1. cbn [handle].
  rewrite handleResize_Z. cbv zeta. rewrite generateEmptyGrid_Ok by lia.
  eexists _, _. split; [reflexivity|]. split; [reflexivity|].
  unfold Part000.toggleRun, Part000.runSimulation.
  cbn [running render with_running with_runningRef with_grid with_cfg
       runningRef negb grid cfg timers].
  rewrite Hs1. cbn [bind mount]. split; [reflexivity|]. split; [reflexivity|].
  cbn [timers render with_running with_timers with_grid with_runningRef].
  assert (Hk' : (timers s ++
                 [(simulationSpeed (cfg s),
                   mkConfig rows cols (surviveMin (cfg s)) (surviveMax (cfg s))
                     (birthNum (cfg s)) (simulationSpeed (cfg s)))]) !! k =
                Some (d, c)).
  { by apply lookup_app_l_Some. }
  split; [done|].
  pose proof (step_missing_rows c g1 rows cols Hwf1) as Hthrow.
  split; [cbn [grid]; apply Hthrow; lia|].
  rewrite (fire_running k _ d c) by done. cbv zeta.
  cbn [grid render with_running with_timers with_grid with_runningRef].
  rewrite Hthrow by lia. reflexivity.
Qed.

Lemma stale_tick_after_shrink_throws_witness :
  timers started !! 0%nat = Some (interval, cfg initial) ∧
  ∃ s1 s2,
    handle (Resize 5 5) started = Returned s1 ∧
    handle StartPause s1 = Returned s2 ∧
    handle (Timer 0) s2 = Crashed TypeError.
Proof.
  assert (H : timers started !! 0%nat = Some (interval, cfg initial))
    by reflexivity.
  split; [exact H|].
  destruct (stale_tick_after_shrink_throws started 0 interval 5 5 (cfg initial) H)
    as (s1 & s2 & E1 & _ & E2 & _ & _ & _ & E3);
    [lia | simpl; lia | lia | simpl; lia |].
  exists s1, s2. split; [exact E1|]. split; [exact E2 | exact E3].
Defined.

(** ** Counts and degenerate rules *)

Lemma live_outside rows cols g i j :
  well_formed rows cols g = true → ¬ (0 ≤ i < rows ∧ 0 ≤ j < cols) →
  live g i j = false.
Proof.
  intros Hwf Hout. unfold live. by rewrite (well_formed_outside _ _ g i j Hwf Hout).
Qed.

(** Decide each [live] of the Moore neighbourhood: false where the
    position lies outside the grid, a case split elsewhere. *)
Ltac split_neighbours Hwf :=
  repeat match goal with
         | |- context [live ?g ?a ?b] =>
             first [ rewrite (live_outside _ _ g a b Hwf) by lia
                   | destruct (live g a b) ]
         end.

(** X10.  On a well-formed grid the count that the step computes for a
    cell is an integer between 0 and 8; it is at most 3 for a corner cell
    and at most 5 for a cell on an edge, because positions outside the
    grid are skipped and the grid does not wrap. *)
Theorem neighbour_count_bounds (c : config) (g : grid_t) (i j : Z) :
  well_formed (numRows c) (numCols c) g = true →
  0 ≤ i < numRows c → 0 ≤ j < numCols c →
  ∃ n, count c g i j = Ok (Int n) ∧ n = live_neighbours g i j ∧
       0 ≤ n ≤ 8 ∧
       ((i = 0 ∨ i = numRows c - 1) ∧ (j = 0 ∨ j = numCols c - 1) → n ≤ 3) ∧
       (i = 0 ∨ i = numRows c - 1 ∨ j = 0 ∨ j = numCols c - 1 → n ≤ 5).
Proof.
  intros Hwf Hi Hj. exists (live_neighbours g i j).
  split; [by apply count_well_formed|]. split; [done|].
  unfold live_neighbours, moore. cbn [List.filter]. split_and!.
  - lia.
  - split_neighbours Hwf; simpl; lia.
  - intros [[-> | ->] [-> | ->]]; split_neighbours Hwf; simpl; lia.
  - intros [-> | [-> | [-> | ->]]]; split_neighbours Hwf; simpl; lia.
Qed.

Lemma neighbour_count_bounds_witness :
  well_formed 3 3 small_blinker = true ∧
  ∃ n, count (classical 3 3) small_blinker 0 0 = Ok (Int n) ∧ n ≤ 3.
Proof.
  assert (H : well_formed 3 3 small_blinker = true) by reflexivity.
  split; [exact H|].
  destruct (neighbour_count_bounds (classical 3 3) small_blinker 0 0 H)
    as (n & E & _ & _ & Hcorner & _); [simpl; lia | simpl; lia |].
  exists n. split; [exact E|]. apply Hcorner. simpl. lia.
Defined.

Lemma live_neighbours_range g i j : 0 ≤ live_neighbours g i j ≤ 8.
Proof.
  unfold live_neighbours, moore. cbn [List.filter].
  repeat match goal with
         | |- context [live ?g ?a ?b] => destruct (live g a b)
         end; simpl; lia.
Qed.

(** X11.  Rule parameters outside [0, 8], which the setters accept, make
    a rule inert: with [birthNum] below 0 or above 8 no dead cell ever
    becomes alive; with [surviveMin] at most 0 and [surviveMax] at least 8
    no alive cell ever dies; with [surviveMin] above 8 or [surviveMax]
    below 0 every alive cell dies. *)
Theorem out_of_range_rules (c : config) (g g' : grid_t) (i j : Z) :
  well_formed (numRows c) (numCols c) g = true →
  Part000.step c g = Ok g' →
  (birthNum c < 0 ∨ 8 < birthNum c →
     cell_at g i j = Some Dead → cell_at g' i j = Some Dead) ∧
  (surviveMin c ≤ 0 → 8 ≤ surviveMax c →
     cell_at g i j = Some Alive → cell_at g' i j = Some Alive) ∧
  (8 < surviveMin c ∨ surviveMax c < 0 →
     cell_at g i j = Some Alive → cell_at g' i j = Some Dead).
Proof.
  intros Hwf Hs. destruct (step_well_formed c g Hwf) as (g0 & Hs0 & _ & Hcell).
  rewrite Hs in Hs0. injection Hs0 as <-.
  pose proof (live_neighbours_range g i j) as Hn.
  split_and!; intros; rewrite (Hcell i j _ ltac:(eassumption));
    unfold next_state, Alive, Dead; repeat case_bool_decide; try done; lia.
Qed.

Lemma out_of_range_rules_witness :
  let c := mkConfig 3 3 2 3 9 interval in
  well_formed 3 3 small_blinker = true ∧
  ∃ g', Part000.step c small_blinker = Ok g' ∧ cell_at g' 1 0 = Some Dead.
Proof.
  intros c.
  assert (H : well_formed 3 3 small_blinker = true) by reflexivity.
  split; [exact H|]. eexists. split; [reflexivity|].
  refine (proj1 (out_of_range_rules c small_blinker _ 1 0 H eq_refl) _ eq_refl).
  right. simpl. lia.
Defined.

(** X12.  When [surviveMin] exceeds [surviveMax] no live cell survives a
    step: every cell that is alive afterwards was dead before and was
    born with exactly [birthNum] live neighbours. *)
Theorem no_survivor_when_min_exceeds_max (c : config) (g g' : grid_t) (i j : Z) :
  well_formed (numRows c) (numCols c) g = true →
  Part000.step c g = Ok g' →
  surviveMax c < surviveMin c →
  (cell_at g i j = Some Alive → cell_at g' i j = Some Dead) ∧
  (cell_at g' i j = Some Alive →
     cell_at g i j = Some Dead ∧ live_neighbours g i j = birthNum c).
Proof.
  intros Hwf Hs Hlt. destruct (step_well_formed c g Hwf) as (g0 & Hs0 & Hwf' & Hcell).
  rewrite Hs in Hs0. injection Hs0 as <-. split.
  - intros Hv. rewrite (Hcell i j _ Hv).
    unfold next_state, Alive, Dead; repeat case_bool_decide; try done; lia.
  - intros Hv'.
    destruct (decide (0 ≤ i < numRows c ∧ 0 ≤ j < numCols c)) as [[Hi Hj]|Hout].
    2:{ by rewrite (well_formed_outside _ _ g' i j Hwf' Hout) in Hv'. }
    destruct (well_formed_cell _ _ g i j Hwf Hi Hj) as (row & v & Hr & _ & Hv & Hb).
    assert (Hg : cell_at g i j = Some v) by (unfold cell_at; by rewrite Hr).
    rewrite (Hcell i j v Hg) in Hv'. rewrite Hg. injection Hv' as Hv'.
    revert Hv'. unfold next_state, Alive, Dead in *.
    destruct Hb as [-> | ->]; repeat case_bool_decide; intros; try done; try lia.
    split; [done|tauto].
Qed.

Lemma no_survivor_when_min_exceeds_max_witness :
  let c := mkConfig 3 3 4 1 3 interval in
  well_formed 3 3 small_blinker = true ∧ surviveMax c < surviveMin c ∧
  ∃ g', Part000.step c small_blinker = Ok g' ∧ cell_at g' 1 1 = Some Dead.
Proof.
  intros c.
  assert (H : well_formed 3 3 small_blinker = true) by reflexivity.
  assert (H' : surviveMax c < surviveMin c) by (simpl; lia).
  split; [exact H|]. split; [exact H'|]. eexists. split; [reflexivity|].
  exact (proj1 (no_survivor_when_min_exceeds_max c small_blinker _ 1 1 H eq_refl H')
           eq_refl).
Defined.

(** X13.  The all-dead grid of [numRows] by [numCols], which is what
    [generateEmptyGrid] returns when both are below 2^32, is a fixed
    point of the step whenever [birthNum] is not 0 (and only then: with
    [birthNum = 0] every cell is born). *)
Theorem empty_grid_fixed_point (c : config) :
  0 < numRows c → 0 ≤ numCols c →
  ∃ g0, g0 = dead_grid (numRows c) (numCols c) ∧
        (numRows c < 2 ^ 32 → numCols c < 2 ^ 32 →
           generateEmptyGrid (numRows c) (numCols c) = Ok g0) ∧
        (birthNum c ≠ 0 → Part000.step c g0 = Ok g0) ∧
        (birthNum c = 0 → 0 < numCols c → Part000.step c g0 ≠ Ok g0).
Proof.
  intros Hr Hc. eexists. split; [reflexivity|].
  split; [intros; apply generateEmptyGrid_Ok; lia|].
  pose proof (empty_well_formed (numRows c) (numCols c)
                ltac:(lia) ltac:(lia)) as Hwf.
  destruct (step_well_formed c _ Hwf) as (g1 & Hs & Hwf1 & Hcell).
  assert (Hnext : ∀ i j, 0 ≤ i < numRows c → 0 ≤ j < numCols c →
            cell_at g1 i j = Some (next_state c Dead 0) ∧
            cell_at (replicate (Z.to_nat (numRows c))
              (Some (replicate (Z.to_nat (numCols c)) (Some Dead)))) i j = Some Dead).
  { intros i j Hi Hj.
    destruct (well_formed_cell _ _ _ i j Hwf Hi Hj) as (row & v & Hrow & _ & Hv & _).
    assert (Hg : cell_at (replicate (Z.to_nat (numRows c))
                   (Some (replicate (Z.to_nat (numCols c)) (Some Dead)))) i j = Some v).
    { unfold cell_at. by rewrite Hrow. }
    pose proof (empty_cell _ _ _ _ _ Hg) as ->.
    by rewrite (Hcell _ _ _ Hg), empty_live_neighbours. }
  rewrite Hs. split.
  - intros Hb. f_equal. apply (grid_ext (numRows c) (numCols c)); [done..|].
    intros i j Hi Hj. destruct (Hnext i j Hi Hj) as [-> ->].
    unfold next_state, Alive, Dead. repeat case_bool_decide; try done.
    exfalso. apply Hb. lia.
  - intros Hb Hc0 [= ->]. destruct (Hnext 0 0) as [H1 H2]; [lia..|].
    rewrite H2 in H1. revert H1.
    unfold next_state, Alive, Dead. rewrite Hb.
    repeat case_bool_decide; try done; intros _; lia.
Qed.

Lemma empty_grid_fixed_point_witness :
  0 < numRows (classical 4 6) ∧ 0 ≤ numCols (classical 4 6) ∧
  ∃ g0, generateEmptyGrid 4 6 = Ok g0 ∧ Part000.step (classical 4 6) g0 = Ok g0.
Proof.
  assert (H1 : 0 < numRows (classical 4 6)) by (simpl; lia).
  assert (H2 : 0 ≤ numCols (classical 4 6)) by (simpl; lia).
  split; [exact H1|]. split; [exact H2|].
  destruct (empty_grid_fixed_point (classical 4 6) H1 H2)
    as (g0 & _ & E & Hfix & _).
  exists g0. split; [apply E; simpl; lia|]. apply Hfix. simpl. lia.
Defined.

(** ** Stale columns, clicks and random grids *)

Lemma probe_NaN c g i j op :
  rows_exist (numRows c) g = true → probe c g i j NaN op = Ok NaN.
Proof.
  intros Hre. destruct op as [x y]. unfold probe.
  destruct ((i + x >=? 0) && (i + x <? numRows c) &&
            (j + y >=? 0) && (j + y <? numCols c)) eqn:Hb; [|done].
  rewrite !andb_true_iff, !Z.geb_le, !Z.ltb_lt in Hb.
  by destruct (proj1 (rows_exist_spec _ _) Hre (i + x)) as [row ->]; [lia|].
Qed.

Lemma forEach_cons {A S} (body : S → A → result S) x l s :
  forEach body (x :: l) s = let* s' := body s x in forEach body l s'.
Proof. reflexivity. Qed.

Lemma forEach_probe_NaN c g i j l :
  rows_exist (numRows c) g = true → forEach (probe c g i j) l NaN = Ok NaN.
Proof.
  intros Hre. induction l as [|op l IH]; [done|].
  cbn [forEach]. by rewrite probe_NaN.
Qed.

(** X14.  When the closure counts on more columns than the rows have (and
    on no more rows than there are), the step does not throw, but the
    read past the end of a row is [undefined] and turns the count of
    every cell of the last column into [NaN]; all three comparisons of
    the rule are then false, and the last column keeps its state whatever
    the neighbours are. *)
Theorem wide_closure_freezes_last_column (c : config) (g : grid_t) (cols i : Z) :
  well_formed (numRows c) cols g = true →
  0 < cols → cols < numCols c → 0 ≤ i < numRows c →
  count c g i (cols - 1) = Ok NaN ∧
  ∃ g', Part000.step c g = Ok g' ∧
        cell_at g' i (cols - 1) = cell_at g i (cols - 1).
Proof.
  intros Hwf Hc Hc' Hi.
  pose proof (well_formed_rows_exist _ _ _ Hwf) as Hre.
  destruct (well_formed_cell _ _ g i (cols - 1) Hwf) as (row & v & Hrow & Hlen & Hv & _);
    [lia..|].
  assert (Hn : count c g i (cols - 1) = Ok NaN).
  { unfold count, operations. rewrite forEach_cons. unfold probe at 1.
    replace (cols - 1 + 1) with cols by lia. rewrite Z.add_0_r.
    destruct (Z.geb_spec i 0); [|lia]. destruct (Z.ltb_spec i (numRows c)); [|lia].
    destruct (Z.geb_spec cols 0); [|lia]. destruct (Z.ltb_spec cols (numCols c)); [|lia].
    cbn [andb]. rewrite Hrow.
    assert (array_get row cols = None) as ->.
    { destruct (array_get row cols) as [w|] eqn:Hw; [|done].
      apply array_get_Some in Hw as [_ Hw%lookup_lt_Some]. lia. }
    cbn [js_add bind]. by rewrite forEach_probe_NaN. }
  split; [done|].
  destruct (step_total c g Hre) as [g' Hg']. exists g'. split; [done|].
  assert (Hcell : cell_at g i (cols - 1) = Some v).
  { unfold cell_at. by rewrite Hrow. }
  destruct (step_cell _ _ _ _ _ _ Hg' Hcell) as (n & v' & Hn' & Hru & Hv').
  rewrite Hn in Hn'. injection Hn' as <-. rewrite rule_NaN in Hru.
  injection Hru as <-. by rewrite Hv', Hcell.
Qed.

Lemma wide_closure_freezes_last_column_witness :
  let c := classical 3 5 in
  well_formed 3 3 small_blinker = true ∧
  count c small_blinker 1 2 = Ok NaN ∧
  ∃ g', Part000.step c small_blinker = Ok g' ∧
        cell_at g' 1 2 = cell_at small_blinker 1 2.
Proof.
  intros c.
  assert (H : well_formed (numRows c) 3 small_blinker = true) by reflexivity.
  split; [exact H|].
  apply (wide_closure_freezes_last_column c small_blinker 3 1 H);
    simpl; lia.
Defined.

(** X15.  A click on a position where the grid has no cell (outside the
    grid, or on a hole) changes nothing; and on a grid whose filled cells
    are all [0] or [1], clicking the same position twice gives back the
    grid as it was. *)
Theorem click_twice_restores (s : state) (i j : Z) :
  (cell_at (grid s) i j = None → grid (handleCellClick i j s) = grid s) ∧
  (filled_binary (grid s) →
     grid (handleCellClick i j (handleCellClick i j s)) = grid s).
Proof.
  unfold handleCellClick. cbn [grid render with_grid with_runningRef]. split.
  - intros Hnone. apply list_eq. intros n. rewrite array_map_lookup.
    destruct (grid s !! n) as [[row|]|] eqn:Hr; [|done..]. simpl. do 2 f_equal.
    apply list_eq. intros m. rewrite array_map_lookup.
    destruct (row !! m) as [[v|]|] eqn:Hv; [|done..]. simpl. do 2 f_equal.
    destruct (Z.eqb_spec (Z.of_nat n) i) as [<-|]; [|done].
    destruct (Z.eqb_spec (Z.of_nat m) j) as [<-|]; [|done].
    unfold cell_at in Hnone. rewrite array_get_of_nat, Hr in Hnone.
    simpl in Hnone. by rewrite array_get_of_nat, Hv in Hnone.
  - intros Hf. apply list_eq. intros n. rewrite !array_map_lookup.
    destruct (grid s !! n) as [[row|]|] eqn:Hr; [|done..]. simpl. do 2 f_equal.
    apply list_eq. intros m. rewrite !array_map_lookup.
    destruct (row !! m) as [[v|]|] eqn:Hv; [|done..]. simpl. do 2 f_equal.
    destruct (Hf _ _ Hr) as (row' & [= <-] & Hrow).
    destruct ((Z.of_nat n =? i) && (Z.of_nat m =? j)); [|done].
    by destruct (Hrow _ _ Hv) as [-> | ->].
Qed.

Lemma click_twice_restores_witness :
  cell_at (grid started) 30 0 = None ∧ filled_binary (grid started) ∧
  grid (handleCellClick 30 0 started) = grid started ∧
  grid (handleCellClick 3 4 (handleCellClick 3 4 started)) = grid started.
Proof.
  assert (H1 : cell_at (grid started) 30 0 = None) by reflexivity.
  assert (H2 : filled_binary (grid started)).
  { destruct (generateEmptyGrid_filled 30 50 (grid initial) eq_refl) as [Hf Hl].
    exact (proj1 (handle_grid_invariant StartPause initial started Hf
                    (or_introl Hl) (or_introl eq_refl))). }
  split; [exact H1|]. split; [exact H2|]. split.
  - exact (proj1 (click_twice_restores started 30 0) H1).
  - exact (proj2 (click_twice_restores started 3 4) H2).
Defined.

(** X16.  [handleRandom] throws exactly when there is at least one row
    and the number of rows or of columns is 2^32 or more; the exception
    is a [RangeError] and nothing has been set.  Otherwise it builds a
    well-formed grid of the current dimensions (no row when [numRows] is
    not positive, empty rows when [numCols] is not positive) in which a
    cell is alive exactly when its draw, the draws being made row by row,
    is strictly greater than the double [0.7]: a draw equal to it gives a
    dead cell.  It keeps the run state, the configuration and the pending
    ticks, so a running simulation goes on with the new grid. *)
Theorem random_grid (draws : nat → Q) (s : state) :
  let rows := numRows (cfg s) in
  let cols := numCols (cfg s) in
  (handleRandom draws s = Throw RangeError ↔
     0 < rows ∧ (2 ^ 32 ≤ rows ∨ 2 ^ 32 ≤ cols)) ∧
  (∀ e, handleRandom draws s = Throw e → e = RangeError) ∧
  (∀ s', handleRandom draws s = Ok s' →
     well_formed (Z.max 0 rows) (Z.max 0 cols) (grid s') = true ∧
     (∀ i j, 0 ≤ i < rows → 0 ≤ j < cols →
        live (grid s') i j =
        negb (Qle_bool (draws (Z.to_nat (i * cols + j))) threshold)) ∧
     running s' = running s ∧ cfg s' = cfg s ∧ timers s' = timers s).
Proof.
  intros rows cols. unfold handleRandom. cbv zeta. fold rows cols.
  destruct (Z.leb_spec rows 0) as [Hr|Hr].
  { split_and!; [split; [done|lia] | done |].
    intros s' [= <-]. cbn [grid running cfg timers render with_grid with_runningRef].
    replace (Z.max 0 rows) with 0 by lia. split_and!; try done. lia. }
  destruct (Z.leb_spec (2 ^ 32) rows) as [Hr'|Hr'].
  { split_and!; [split; [lia|done] | by intros e [= <-] | done]. }
  destruct (Z.leb_spec (2 ^ 32) cols) as [Hc|Hc].
  { split_and!; [split; [lia|done] | by intros e [= <-] | done]. }
  split_and!; [split; [done|lia] | done |].
  intros s' [= <-]. cbn [grid running cfg timers render with_grid with_runningRef].
  split_and!; try done.
  - apply well_formed_spec. rewrite length_fmap, length_seqZ. split; [lia|].
    intros n r Hn. rewrite list_lookup_fmap in Hn.
    destruct (seqZ 0 rows !! n) as [i|]; [|done]. injection Hn as <-.
    eexists. split_and!; [done | rewrite length_fmap, length_seqZ; lia |].
    intros m v Hm. rewrite list_lookup_fmap in Hm.
    destruct (seqZ 0 cols !! m) as [j|]; [|done]. injection Hm as <-.
    destruct (negb _); auto.
  - intros i j Hi Hj. unfold live, cell_at.
    set (cell := λ i j : Z,
           if negb (Qle_bool (draws (Z.to_nat (i * cols + j))) threshold)
           then 1 else 0).
    rewrite (proj2 (array_get_Some _ i ((λ j, Some (cell i j)) <$> seqZ 0 cols))).
    + rewrite (proj2 (array_get_Some _ j (cell i j))).
      * unfold cell. by destruct (negb _).
      * split; [lia|]. rewrite list_lookup_fmap.
        rewrite (proj2 (lookup_seqZ 0 _ (Z.to_nat j) j)); [done|lia].
    + split; [lia|]. rewrite list_lookup_fmap.
      rewrite (proj2 (lookup_seqZ 0 _ (Z.to_nat i) i)); [done|lia].
Qed.

Lemma random_grid_witness :
  let s := mkState (classical 4 4) [] true true [] in
  let draws := λ n : nat, Z.of_nat n # 16 in
  ∃ s', handleRandom draws s = Ok s' ∧
        live (grid s') 3 0 = true ∧ live (grid s') 2 3 = false ∧
        running s' = true.
Proof.
  intros s draws.
  destruct (random_grid draws s) as (_ & _ & H).
  eexists. split; [reflexivity|].
  destruct (H _ eq_refl) as (_ & Hl & R & _).
  split; [|split].
  - rewrite (Hl 3 0); [reflexivity | simpl; lia | simpl; lia].
  - rewrite (Hl 2 3); [reflexivity | simpl; lia | simpl; lia].
  - exact R.
Defined.

(** ** Blinker and glider on grids of any size *)

Lemma member_translate di dj cells a b :
  member (translate di dj cells) a b = member cells (a - di) (b - dj).
Proof.
  unfold member, translate. apply bool_decide_ext.
  rewrite list_elem_of_fmap. split.
  - intros ([x y] & [= -> ->] & Hin).
    by replace (x + di - di) with x by lia; replace (y + dj - dj) with y by lia.
  - intros Hin. exists (a - di, b - dj). split; [f_equal; lia | done].
Qed.

Lemma in_box_spec lo hi p :
  in_box lo hi p = true ↔ lo ≤ p.1 ≤ hi ∧ lo ≤ p.2 ≤ hi.
Proof. unfold in_box. rewrite !andb_true_iff, !Z.leb_le. lia. Qed.

Lemma member_in_box lo hi cells a b :
  forallb (in_box lo hi) cells = true → member cells a b = true →
  lo ≤ a ≤ hi ∧ lo ≤ b ≤ hi.
Proof.
  rewrite forallb_forall. intros H Hm. unfold member in Hm.
  apply bool_decide_eq_true in Hm. apply list_elem_of_In in Hm.
  by apply H, in_box_spec in Hm.
Qed.

Lemma member_outside_box lo hi cells a b :
  forallb (in_box lo hi) cells = true → ¬ (lo ≤ a ≤ hi ∧ lo ≤ b ≤ hi) →
  member cells a b = false.
Proof.
  intros H Hout. destruct (member cells a b) eqn:Hm; [|done].
  destruct Hout. by eapply member_in_box.
Qed.

Lemma elem_of_square lo hi x y :
  (x, y) ∈ square lo hi ↔ lo ≤ x ≤ hi ∧ lo ≤ y ≤ hi.
Proof.
  unfold square. rewrite list_elem_of_bind. split.
  - intros (x' & Hy & Hx). apply list_elem_of_fmap in Hy as (y' & Heq & Hy).
    simpl in Heq. injection Heq as -> ->.
    apply elem_of_seqZ in Hx, Hy. lia.
  - intros [Hx Hy]. exists x. split.
    + apply list_elem_of_fmap. exists y. split; [done|]. apply elem_of_seqZ. lia.
    + apply elem_of_seqZ. lia.
Qed.

(** On the plane, outside the square and its rim nothing is alive and
    nothing is born; inside, the check has computed the rule. *)
Lemma evolves_spec c lo hi cells cells' x y :
  evolves c lo hi cells cells' = true →
  plane_next c cells x y = Z.b2z (member cells' x y).
Proof.
  unfold evolves. rewrite !andb_true_iff, negb_true_iff, Z.eqb_neq.
  intros [[[Hbox Hbox'] Hwin] Hbirth].
  destruct (decide (lo - 1 ≤ x ≤ hi + 1 ∧ lo - 1 ≤ y ≤ hi + 1)) as [Hin|Hout].
  - rewrite forallb_forall in Hwin.
    apply elem_of_square, list_elem_of_In, Hwin in Hin. by apply Z.eqb_eq in Hin.
  - rewrite (member_outside_box _ _ cells' x y Hbox' Hout).
    unfold plane_next, plane_tally, operations. cbn [foldr].
    rewrite !(member_outside_box lo hi cells) by (done || lia).
    unfold next_state, Alive, Dead. simpl.
    repeat case_bool_decide; try done; lia.
Qed.

Lemma live_pattern rows cols cells a b :
  0 ≤ rows → 0 ≤ cols →
  (∀ x y, member cells x y = true → 0 ≤ x < rows ∧ 0 ≤ y < cols) →
  live (pattern_grid rows cols cells) a b = member cells a b.
Proof.
  intros Hr Hc Hin.
  destruct (decide (0 ≤ a < rows ∧ 0 ≤ b < cols)) as [[Ha Hb]|Hout].
  - unfold live. rewrite pattern_grid_cell by done. unfold member.
    by case_bool_decide.
  - rewrite (live_outside rows cols) by (done || by apply pattern_grid_well_formed).
    destruct (member cells a b) eqn:Hm; [|done]. destruct Hout. by apply Hin.
Qed.

Lemma pattern_tally rows cols cr cc cells i j offs :
  0 ≤ rows → 0 ≤ cols →
  (∀ x y, member (translate cr cc cells) x y = true → 0 ≤ x < rows ∧ 0 ≤ y < cols) →
  tally (pattern_grid rows cols (translate cr cc cells)) i j offs =
  plane_tally cells (i - cr) (j - cc) offs.
Proof.
  intros Hr Hc Hin. induction offs as [|[dx dy] offs IH]; [done|].
  unfold tally, plane_tally in *. cbn [foldr]. rewrite IH. f_equal.
  rewrite live_pattern, member_translate by done. do 2 f_equal; f_equal; lia.
Qed.

(** One step of a pattern that lies inside the grid: what the check has
    computed on the plane is what the step does on the grid. *)
Lemma step_pattern c cr cc lo hi cells cells' :
  evolves c lo hi cells cells' = true →
  0 ≤ cr + lo → cr + hi < numRows c → 0 ≤ cc + lo → cc + hi < numCols c →
  lo ≤ hi →
  Part000.step c (pattern_grid (numRows c) (numCols c) (translate cr cc cells)) =
  Ok (pattern_grid (numRows c) (numCols c) (translate cr cc cells')).
Proof.
  intros Hev Hr0 Hr1 Hc0 Hc1 Hlohi.
  set (rows := numRows c) in *. set (cols := numCols c) in *.
  assert (Hin : ∀ x y, member (translate cr cc cells) x y = true →
                       0 ≤ x < rows ∧ 0 ≤ y < cols).
  { intros x y. rewrite member_translate. intros Hm.
    pose proof Hev as Hbox. unfold evolves in Hbox.
    rewrite !andb_true_iff in Hbox. destruct Hbox as [[[Hbox _] _] _].
    apply (member_in_box lo hi) in Hm; [lia|done]. }
  pose proof (pattern_grid_well_formed rows cols (translate cr cc cells)
                ltac:(lia) ltac:(lia)) as Hwf.
  destruct (step_well_formed c _ Hwf) as (g' & -> & Hwf' & Hcell). f_equal.
  apply (grid_ext rows cols); [done | apply pattern_grid_well_formed; lia |].
  intros i j Hi Hj.
  rewrite (Hcell i j _ (pattern_grid_cell rows cols _ i j Hi Hj)).
  rewrite pattern_grid_cell by done. f_equal.
  rewrite <- tally_operations, (pattern_tally rows cols) by (done || lia).
  pose proof (evolves_spec c lo hi cells cells' (i - cr) (j - cc) Hev) as Hnext.
  unfold plane_next in Hnext.
  assert (Hb : ∀ b : bool, (if b then 1 else 0) = Z.b2z b) by (by intros []).
  unfold Alive, Dead.
  fold (member (translate cr cc cells) i j).
  fold (member (translate cr cc cells') i j).
  by rewrite !Hb, !member_translate.
Qed.

(** Equality of two lists of positions, component by component. *)
Ltac list_pairs_eq :=
  repeat match goal with
         | |- _ :: _ = _ :: _ => f_equal
         | |- (_, _) = (_, _) => f_equal
         end; try done; lia.

Lemma evolves_rules c c' lo hi cells cells' :
  surviveMin c = surviveMin c' → surviveMax c = surviveMax c' →
  birthNum c = birthNum c' →
  evolves c lo hi cells cells' = evolves c' lo hi cells cells'.
Proof.
  destruct c, c'. simpl. by intros -> -> ->.
Qed.

Lemma live_translate rows cols cr cc lo hi cells a b :
  forallb (in_box lo hi) cells = true →
  0 ≤ cr + lo → cr + hi < rows → 0 ≤ cc + lo → cc + hi < cols → lo ≤ hi →
  live (pattern_grid rows cols (translate cr cc cells)) a b =
  member cells (a - cr) (b - cc).
Proof.
  intros Hbox ?????. rewrite live_pattern, member_translate; [done | lia | lia |].
  intros x y. rewrite member_translate. intros Hm.
  apply (member_in_box lo hi) in Hm; [lia|done].
Qed.

(** X17.  Under the rules survive 2-3, birth 3, the blinker oscillates
    with period two on every grid of at least three rows and three
    columns: on the grid holding the upright triple around the centre,
    which is the grid that [createOscillator] seeds when the dimensions
    are below 2^32, one step gives the lying triple through the same
    centre, and the next step gives the upright triple back. *)
Theorem blinker_period_two_any_size (s : state) :
  let c := cfg s in
  let rows := numRows c in
  let cols := numCols c in
  let g := pattern_grid rows cols (blinker_cells rows cols) in
  surviveMin c = 2 → surviveMax c = 3 → birthNum c = 3 →
  3 ≤ rows → 3 ≤ cols →
  (rows < 2 ^ 32 → cols < 2 ^ 32 →
     ∃ s1, Part000.createOscillator s = Ok s1 ∧ grid s1 = g) ∧
  Part000.step c g =
    Ok (pattern_grid rows cols
          [(rows / 2, cols / 2 - 1); (rows / 2, cols / 2);
           (rows / 2, cols / 2 + 1)]) ∧
  Part000.step c
    (pattern_grid rows cols
       [(rows / 2, cols / 2 - 1); (rows / 2, cols / 2);
        (rows / 2, cols / 2 + 1)]) = Ok g ∧
  steps c 2 g = Ok g.
Proof.
  intros c rows cols g H1 H2 H3 Hr Hc. subst g. split.
  { intros Hr' Hc'.
    rewrite createOscillator_spec by (fold c rows cols; lia).
    eexists. split; done. }
  set (cr := rows / 2). set (cc := cols / 2).
  assert (1 ≤ cr ∧ cr + 1 < rows) by (subst cr; Z.div_mod_to_equations; lia).
  assert (1 ≤ cc ∧ cc + 1 < cols) by (subst cc; Z.div_mod_to_equations; lia).
  assert (Hup : blinker_cells rows cols = translate cr cc blinker_upright).
  { unfold blinker_cells, translate, blinker_upright. fold cr cc. cbn.
    list_pairs_eq. }
  assert (Hly : [(cr, cc - 1); (cr, cc); (cr, cc + 1)] =
                translate cr cc blinker_lying).
  { unfold translate, blinker_lying. cbn. list_pairs_eq. }
  assert (E1 : evolves c (-1) 1 blinker_upright blinker_lying = true).
  { by rewrite (evolves_rules c (classical 0 0)). }
  assert (E2 : evolves c (-1) 1 blinker_lying blinker_upright = true).
  { by rewrite (evolves_rules c (classical 0 0)). }
  rewrite Hup, Hly.
  assert (S1 : Part000.step c (pattern_grid rows cols (translate cr cc blinker_upright)) =
               Ok (pattern_grid rows cols (translate cr cc blinker_lying))).
  { apply (step_pattern c cr cc (-1) 1); (done || fold rows cols; lia). }
  assert (S2 : Part000.step c (pattern_grid rows cols (translate cr cc blinker_lying)) =
               Ok (pattern_grid rows cols (translate cr cc blinker_upright))).
  { apply (step_pattern c cr cc (-1) 1); (done || fold rows cols; lia). }
  split_and!; [done | done |].
  cbn [steps]. rewrite S1. cbn [bind]. by rewrite S2.
Qed.

Lemma blinker_period_two_any_size_witness :
  let s := with_cfg (classical 3 7) initial in
  ∃ s1, Part000.createOscillator s = Ok s1 ∧
        steps (classical 3 7) 2 (grid s1) = Ok (grid s1).
Proof.
  intros s.
  destruct (blinker_period_two_any_size s) as (L & _ & _ & P);
    [reflexivity | reflexivity | reflexivity | simpl; lia | simpl; lia |].
  destruct L as (s1 & E & G); [simpl; lia | simpl; lia |].
  exists s1. split; [exact E|]. rewrite G. exact P.
Defined.

(** X18.  Under the rules survive 2-3, birth 3, a glider that has room
    moves by one row and one column every four steps: for the glider
    shape of [createGlider] placed anywhere with its four by four box
    inside the grid, four steps give the same shape one cell further down
    and to the right.  In particular, on a grid of at least seven rows
    and seven columns the glider around the centre, which is the grid
    that [createGlider] seeds when the dimensions are below 2^32, is, four
    steps later, the same five cells moved by [(+1, +1)]. *)
Theorem glider_translates (s : state) :
  let c := cfg s in
  let rows := numRows c in
  let cols := numCols c in
  let g0 := pattern_grid rows cols (glider_cells rows cols) in
  surviveMin c = 2 → surviveMax c = 3 → birthNum c = 3 →
  (∀ a b, 0 ≤ a → a + 3 < rows → 0 ≤ b → b + 3 < cols →
     steps c 4 (pattern_grid rows cols (translate a b glider0)) =
     Ok (pattern_grid rows cols (translate (a + 1) (b + 1) glider0))) ∧
  (7 ≤ rows → 7 ≤ cols →
     (rows < 2 ^ 32 → cols < 2 ^ 32 →
        ∃ s0, Part000.createGlider s = Ok s0 ∧ grid s0 = g0) ∧
     ∃ g4,
       steps c 4 g0 = Ok g4 ∧
       g4 = pattern_grid rows cols
              (translate 1 1 (glider_cells rows cols)) ∧
       ∀ i j, live g4 (i + 1) (j + 1) = live g0 i j).
Proof.
  intros c rows cols g0 H1 H2 H3. subst rows cols g0.
  assert (E0 : evolves c 0 3 glider0 glider1 = true)
    by by rewrite (evolves_rules c (classical 0 0)).
  assert (E1 : evolves c 0 3 glider1 glider2 = true)
    by by rewrite (evolves_rules c (classical 0 0)).
  assert (E2 : evolves c 0 3 glider2 glider3 = true)
    by by rewrite (evolves_rules c (classical 0 0)).
  assert (E3 : evolves c 0 3 glider3 (translate 1 1 glider0) = true)
    by by rewrite (evolves_rules c (classical 0 0)).
  assert (Hgen : ∀ a b, 0 ≤ a → a + 3 < numRows c → 0 ≤ b → b + 3 < numCols c →
     steps c 4 (pattern_grid (numRows c) (numCols c) (translate a b glider0)) =
     Ok (pattern_grid (numRows c) (numCols c)
           (translate (a + 1) (b + 1) glider0))).
  { intros a b Ha0 Ha1 Hb0 Hb1. cbn [steps].
    rewrite (step_pattern c a b 0 3 glider0 glider1) by (done || lia).
    cbn [bind].
    rewrite (step_pattern c a b 0 3 glider1 glider2) by (done || lia).
    cbn [bind].
    rewrite (step_pattern c a b 0 3 glider2 glider3) by (done || lia).
    cbn [bind].
    rewrite (step_pattern c a b 0 3 glider3 (translate 1 1 glider0))
      by (done || lia).
    cbn [bind]. do 2 f_equal.
    unfold translate, glider0. cbn. list_pairs_eq. }
  split; [done|]. intros Hr Hc. split.
  { intros Hr' Hc'. rewrite createGlider_spec by (fold c; lia).
    eexists. split; done. }
  eexists.
  set (rows := numRows c) in *. set (cols := numCols c) in *.
  set (cr := rows / 2). set (cc := cols / 2).
  assert (0 ≤ cr ∧ cr + 3 < rows) by (subst cr; Z.div_mod_to_equations; lia).
  assert (0 ≤ cc ∧ cc + 3 < cols) by (subst cc; Z.div_mod_to_equations; lia).
  assert (Hg0 : glider_cells rows cols = translate cr cc glider0).
  { unfold glider_cells, translate, glider0. fold cr cc. cbn.
    list_pairs_eq. }
  assert (Hg4 : translate 1 1 (translate cr cc glider0) =
                translate (cr + 1) (cc + 1) glider0).
  { unfold translate, glider0. cbn. list_pairs_eq. }
  rewrite Hg0, Hg4. split; [by apply Hgen; lia|]. split; [done|].
  intros i j.
  rewrite (live_translate rows cols (cr + 1) (cc + 1) 0 2) by (done || lia).
  rewrite (live_translate rows cols cr cc 0 2) by (done || lia).
  f_equal; lia.
Qed.

Lemma glider_translates_witness :
  let s := with_cfg (classical 7 7) initial in
  ∃ s0 g4, Part000.createGlider s = Ok s0 ∧
           steps (classical 7 7) 4 (grid s0) = Ok g4 ∧
           live g4 4 5 = live (grid s0) 3 4.
Proof.
  intros s.
  destruct (glider_translates s eq_refl eq_refl eq_refl) as [_ H].
  destruct H as (Hs & g4 & S & _ & L); [simpl; lia | simpl; lia |].
  destruct Hs as (s0 & E & G); [simpl; lia | simpl; lia |].
  exists s0, g4. split; [exact E|]. rewrite G.
  split; [exact S|]. exact (L 3 4).
Defined.
